(** * Pinthenews: the location pipeline

    A shallow embedding of the location-extraction pipeline of Pinthenews:
    - [agents/location_agents.py]: the tools of the crew (extraction,
      geocoding, summarisation) and
      [NewsLocationMappingCrew.extract_and_process_locations];
    - [src/mcp_integration.py]: the session client [MCPNewsLocationClient]
      with its geocoding fallbacks and its own summariser;
    - [src/app.py]: the orchestrator [process_article_sync].

    Python strings are modelled as [string]; a character stands for the
    code point of the same number (U+0000 to U+00FF), and [lower], [strip]
    and [isdigit] follow Python's tables on that range.  Floats are only
    stored and tested for truth by the code, they are modelled as
    rationals.  The language model, the geocoding service and [json.loads]
    are not part of the repository: they are the fields of a [world], and
    every theorem quantifies over all worlds. *)

From Stdlib Require Import Ascii QArith.
From stdpp Require Import base gmap sets list strings sorting.

Set Warnings "-abstract-large-number".

(* ===================================================================== *)
(** ** Python strings *)
(* ===================================================================== *)

Module PyStr.

Definition code (c : ascii) : N := Ascii.N_of_ascii c.

Definition between (lo hi n : N) : bool := (lo <=? n)%N && (n <=? hi)%N.

(** [str.isspace] on one character: TAB..CR, FS..US, space, NEL, NBSP. *)
Definition isspace_char (c : ascii) : bool :=
  let n := code c in
  between 9 13 n || between 28 32 n || (n =? 133)%N || (n =? 160)%N.

(** [str.isdigit] on one character: 0..9 and the superscripts 2, 3, 1. *)
Definition isdigit_char (c : ascii) : bool :=
  let n := code c in
  between 48 57 n || (n =? 178)%N || (n =? 179)%N || (n =? 185)%N.

(** [str.lower] on one character: A..Z and the capital letters of
    Latin-1 (all of U+00C0..U+00DE but the multiplication sign). *)
Definition lower_char (c : ascii) : ascii :=
  let n := code c in
  if between 65 90 n || between 192 214 n || between 216 222 n
  then Ascii.ascii_of_N (n + 32) else c.

Fixpoint lower (s : string) : string :=
  match s with
  | EmptyString => EmptyString
  | String c s' => String (lower_char c) (lower s')
  end.

Fixpoint lstrip (s : string) : string :=
  match s with
  | EmptyString => EmptyString
  | String c s' => if isspace_char c then lstrip s' else s
  end.

Fixpoint rstrip (s : string) : string :=
  match s with
  | EmptyString => EmptyString
  | String c s' =>
      match rstrip s' with
      | EmptyString => if isspace_char c then EmptyString else String c EmptyString
      | r => String c r
      end
  end.

(** [s.strip()] *)
Definition strip (s : string) : string := rstrip (lstrip s).

Fixpoint all_digits (s : string) : bool :=
  match s with
  | EmptyString => true
  | String c s' => isdigit_char c && all_digits s'
  end.

(** [s.isdigit()]: at least one character, and all of them digits. *)
Definition isdigit (s : string) : bool :=
  match s with
  | EmptyString => false
  | _ => all_digits s
  end.

(** [any(char.isdigit() for char in s)] *)
Fixpoint any_digit (s : string) : bool :=
  match s with
  | EmptyString => false
  | String c s' => isdigit_char c || any_digit s'
  end.

Definition len (s : string) : nat := String.length s.

(** [s[:n]] *)
Fixpoint take (n : nat) (s : string) : string :=
  match n, s with
  | S n', String c s' => String c (take n' s')
  | _, _ => EmptyString
  end.

(** [s[n:]] *)
Fixpoint drop (n : nat) (s : string) : string :=
  match n, s with
  | S n', String _ s' => drop n' s'
  | _, _ => s
  end.

(** [s[a:-b]] for [b > 0]: the stop index is [len s - b], or 0 when the
    string is shorter than [b]; the slice is empty when the stop index
    does not exceed [a]. *)
Definition slice (a b : nat) (s : string) : string :=
  drop a (take (len s - b) s).

(** [s.startswith(p)] *)
Definition startswith (p s : string) : bool := String.prefix p s.

(** [s.endswith(p)] *)
Definition endswith (p s : string) : bool :=
  String.eqb (drop (len s - len p) s) p && (len p <=? len s)%nat.

(** [sub in s] *)
Fixpoint contains (sub s : string) : bool :=
  String.prefix sub s ||
  match s with
  | EmptyString => false
  | String _ s' => contains sub s'
  end.

(** Truth value of a string: [if s], [s or default]. *)
Definition truthy (s : string) : bool := negb (String.eqb s "").

(** [n] copies of [c], for building long inputs. *)
Fixpoint replicate (n : nat) (c : ascii) : string :=
  match n with
  | O => EmptyString
  | S n' => String c (replicate n' c)
  end.

End PyStr.

(* ===================================================================== *)
(** ** Exceptions, events and the external world *)
(* ===================================================================== *)

(** The exceptions the modelled code can meet.  [ServiceError] stands for
    whatever a client library of an external service raises; every
    exception carries the text [str(e)] gives. *)
Inductive exn :=
  | KeyError (key : string)
  | AttributeError (msg : string)
  | ValueError (msg : string)
  | JSONDecodeError (msg : string)
  | ServiceError (msg : string).

Definition exn_str (e : exn) : string :=
  match e with
  | KeyError k => "'" +:+ k +:+ "'"
  | AttributeError m | ValueError m | JSONDecodeError m | ServiceError m => m
  end.

(** A match of the geocoding service: [result.latitude],
    [result.longitude], [result.address]. *)
Record place := {
  place_latitude : Q;
  place_longitude : Q;
  place_address : string }.

Inductive geo_reply :=
  | Found (p : place)
  | NoMatch
  | GeoFails (msg : string).

Inductive model_reply :=
  | Says (text : string)
  | ModelFails (msg : string).

(** One object of the JSON array the model is asked for.  A field is
    [None] when the object has no such key; a key that is present holds a
    value of the type the prompt asks for. *)
Record candidate := {
  c_location : option string;
  c_standardized_name : option string;
  c_type : option string;
  c_confidence : option string;
  c_context : option string;
  c_coordinates_hint : option string;
  c_related_locations : option (list string);
  c_importance : option string }.

(** What [json.loads] gives: an exception, or the parsed array. *)
Inductive parsed :=
  | Parsed (locations : list candidate)
  | Invalid (msg : string).

(** The notices of the Streamlit page ([st.warning], [st.info],
    [st.error]) that [app.py] shows to the caller. *)
Inductive notice :=
  | warning_too_short
  | info_truncated
  | info_top_50 (found : nat)
  | error_initialize (msg : string)
  | error_processing (msg : string)
  | error_hint_api_key
  | error_hint_timeout
  | error_hint_rate_limit.

(** The requests of the summariser of the session client: the values its
    prompt interpolates. *)
Record summary_request := {
  sr_name : string;
  sr_type : string;
  sr_context : string;
  sr_importance : string;
  sr_excerpt : string }.

(** What a run does to the outside, in order.  A call of a service is
    recorded with the answer it got. *)
Inductive event :=
  | Streamlit (n : notice)
  | Printed (msg : string)
  | Logged (level msg : string)
  | Slept (seconds : nat)
  | Extraction (text : string) (r : model_reply)
  | Summary (location context article : string) (r : model_reply)
  | EnhancedSummary (q : summary_request) (r : model_reply)
  | Geocoded (user_agent query : string) (r : geo_reply).

(** The world outside the repository.  Every service sees the whole
    history of the run, so it may answer the same request differently
    each time. *)
Record world := {
  json_loads : string → parsed;
  systems_error : list event → option string;
  extraction_model : list event → string → model_reply;
  summary_model : list event → string → string → string → model_reply;
  enhanced_summary_model : list event → summary_request → model_reply;
  nominatim : list event → string → string → geo_reply }.

(* ===================================================================== *)
(** ** State and exceptions *)
(* ===================================================================== *)

Inductive outcome (A : Type) :=
  | Return (a : A)
  | Raise (e : exn).
Arguments Return {A} a.
Arguments Raise {A} e.

(** A computation over a state [S] that returns or raises. *)
Definition M (S A : Type) : Type := S → outcome A * S.

Definition ret {S A} (a : A) : M S A := λ s, (Return a, s).

Definition bind {S A B} (f : A → M S B) (m : M S A) : M S B :=
  λ s, match m s with
       | (Return a, s') => f a s'
       | (Raise e, s') => (Raise e, s')
       end.

#[global] Instance M_ret S : MRet (M S) := @ret S.
#[global] Instance M_bind S : MBind (M S) := @bind S.

Definition raise {S A} (e : exn) : M S A := λ s, (Raise e, s).

(** [try: body except Exception as e: handler e] *)
Definition try_except {S A} (body : M S A) (handler : exn → M S A) : M S A :=
  λ s, match body s with
       | (Return a, s') => (Return a, s')
       | (Raise e, s') => handler e s'
       end.

(** [for x in l: acc = f acc x] *)
Fixpoint for_each {S A B} (f : B → A → M S B) (l : list A) (acc : B) : M S B :=
  match l with
  | [] => mret acc
  | x :: l' => acc' ← f acc x; for_each f l' acc'
  end.

(** [d[key]] on a dictionary read from JSON. *)
Definition getitem {S A} (key : string) (field : option A) : M S A :=
  match field with
  | Some v => mret v
  | None => raise (KeyError key)
  end.

Definition result_of {S A} (r : outcome A * S) : outcome A := r.1.
Definition state_of {S A} (r : outcome A * S) : S := r.2.

(** The runs of [location_agents.py] and [app.py] have the list of events
    as their only state. *)
Abbreviation Run := (M (list event)).

Definition emit (e : event) : Run () := λ tr, (Return (), tr ++ [e]).

Definition sleep (seconds : nat) : Run () := emit (Slept seconds).

Definition ask_extraction (w : world) (text : string) : Run string :=
  λ tr, let r := extraction_model w tr text in
        (match r with Says t => Return t | ModelFails m => Raise (ServiceError m) end,
         tr ++ [Extraction text r]).

Definition ask_summary (w : world) (location context article : string) : Run string :=
  λ tr, let r := summary_model w tr location context article in
        (match r with Says t => Return t | ModelFails m => Raise (ServiceError m) end,
         tr ++ [Summary location context article r]).

Definition ask_enhanced_summary (w : world) (q : summary_request) : Run string :=
  λ tr, let r := enhanced_summary_model w tr q in
        (match r with Says t => Return t | ModelFails m => Raise (ServiceError m) end,
         tr ++ [EnhancedSummary q r]).

(** [Nominatim(user_agent=...).geocode(query)] *)
Definition geocode (w : world) (user_agent query : string) : Run (option place) :=
  λ tr, let r := nominatim w tr user_agent query in
        (match r with
         | Found p => Return (Some p)
         | NoMatch => Return None
         | GeoFails m => Raise (ServiceError m)
         end,
         tr ++ [Geocoded user_agent query r]).

(** [json.loads(text)] *)
Definition loads (w : world) (text : string) : Run (list candidate) :=
  match json_loads w text with
  | Parsed l => mret l
  | Invalid m => raise (JSONDecodeError m)
  end.

(* ===================================================================== *)
(** ** agents/location_agents.py *)
(* ===================================================================== *)

(** The dataclass [LocationData]; the last four fields default to [None]. *)
Record LocationData := {
  name : string;
  type : string;
  confidence : string;
  context : string;
  latitude : option Q;
  longitude : option Q;
  full_address : option string;
  event_summary : option string }.

(** The removal of a Markdown code fence, written the same way in
    [LocationExtractionTool._run] and in
    [MCPNewsLocationClient._parse_location_response]:
    [[
      if content.startswith('```json'): content = content[7:-3]
      elif content.startswith('```'):   content = content[3:-3]
    ]] *)
Definition clean_response (content : string) : string :=
  if PyStr.startswith "```json" content then PyStr.slice 7 3 content
  else if PyStr.startswith "```" content then PyStr.slice 3 3 content
  else content.

Module LocationExtractionTool.

Definition _run (w : world) (text : string) : Run string :=
  try_except
    (reply ← ask_extraction w text;
     let content := PyStr.strip reply in
     mret (clean_response content))
    (λ e, mret ("Error extracting locations: " +:+ exn_str e)).

End LocationExtractionTool.

(** The dictionary [GeocodingTool._run] serialises with [json.dumps] and
    its caller reads back with [json.loads]. *)
Inductive geocode_data :=
  | geocode_success (location : string) (lat lon : Q) (address : string)
  | geocode_failure (location : string) (error : string).

Module GeocodingTool.

Definition user_agent : string := "news_location_mapper_v1.0".

Definition _run (w : world) (location_name : string) : Run geocode_data :=
  try_except
    (sleep 1;;
     result ← geocode w user_agent location_name;
     match result with
     | Some p =>
         mret (geocode_success location_name (place_latitude p)
                 (place_longitude p) (place_address p))
     | None => mret (geocode_failure location_name "Location not found")
     end)
    (λ e, mret (geocode_failure location_name (exn_str e))).

End GeocodingTool.

Module EventSummarizationTool.

(** [f"Events at {location}: {context[:100]}..."] *)
Definition fallback (location context : string) : string :=
  "Events at " +:+ location +:+ ": " +:+ PyStr.take 100 context +:+ "...".

Definition _run (w : world) (location context full_article : string) : Run string :=
  try_except
    (reply ← ask_summary w location context (PyStr.take 2000 full_article);
     mret (PyStr.strip reply))
    (λ _, mret (fallback location context)).

End EventSummarizationTool.

Module NewsLocationMappingCrew.

(** The body of [for loc in locations]. *)
Definition process_location (w : world) (article_text : string)
    (location_data : list LocationData) (loc : candidate) : Run (list LocationData) :=
  location ← getitem "location" (c_location loc);
  geocode_data ← GeocodingTool._run w location;
  match geocode_data with
  | geocode_success _ lat lon address =>
      location ← getitem "location" (c_location loc);
      context ← getitem "context" (c_context loc);
      event_summary ← EventSummarizationTool._run w location context article_text;
      name ← getitem "location" (c_location loc);
      type ← getitem "type" (c_type loc);
      confidence ← getitem "confidence" (c_confidence loc);
      context ← getitem "context" (c_context loc);
      let location_obj :=
        {| name := name; type := type; confidence := confidence;
           context := context; latitude := Some lat; longitude := Some lon;
           full_address := Some address; event_summary := Some event_summary |} in
      mret (location_data ++ [location_obj])
  | geocode_failure _ _ => mret location_data
  end.

Definition extract_and_process_locations (w : world) (article_text : string)
    : Run (list LocationData) :=
  try_except
    (locations_json ← LocationExtractionTool._run w article_text;
     locations ← loads w locations_json;
     for_each (process_location w article_text) locations [])
    (λ e, emit (Printed ("Error processing locations: " +:+ exn_str e));;
          mret []).

End NewsLocationMappingCrew.

(* ===================================================================== *)
(** ** src/mcp_integration.py *)
(* ===================================================================== *)

(** The dictionary [{**location, 'latitude': ..., 'longitude': ...,
    'full_address': ..., 'geocoding_method': ..., 'geocoding_confidence':
    ...}] of a geocoded location. *)
Record geocoded := {
  g_location : candidate;
  g_latitude : Q;
  g_longitude : Q;
  g_full_address : string;
  g_geocoding_method : string;
  g_geocoding_confidence : string }.

(** The dataclass [MCPContext] (its free-form [metadata] is never read or
    written by the methods below and is left out). *)
Record MCPContext := {
  session_id : string;
  article_content : string;
  extracted_locations : list candidate;
  geocoded_locations : list geocoded;
  processing_status : string;
  error_messages : list string }.

(** The fields of an [MCPNewsLocationClient]. *)
Record client := {
  contexts : gmap string MCPContext;
  current_session_id : option string }.

(** The state of a run of the session client: the client object and the
    events so far. *)
Record session_state := {
  self : client;
  history : list event }.

Abbreviation SessionRun := (M session_state).

(** A run that only talks to the outside, inside a run of the client. *)
Definition lift {A} (m : Run A) : SessionRun A :=
  λ s, let r := m (history s) in (r.1, {| self := self s; history := r.2 |}).

Definition get_self : SessionRun client := λ s, (Return (self s), s).

Definition modify_contexts (f : gmap string MCPContext → gmap string MCPContext)
    : SessionRun () :=
  λ s, (Return (),
        {| self := {| contexts := f (contexts (self s));
                      current_session_id := current_session_id (self s) |};
           history := history s |}).

(** [str(x)] of a string or [None]. *)
Definition str_of_id (i : option string) : string := default "None" i.

Definition with_status (status : string) (c : MCPContext) : MCPContext :=
  {| session_id := session_id c; article_content := article_content c;
     extracted_locations := extracted_locations c;
     geocoded_locations := geocoded_locations c;
     processing_status := status; error_messages := error_messages c |}.

Definition with_error (msg : string) (c : MCPContext) : MCPContext :=
  {| session_id := session_id c; article_content := article_content c;
     extracted_locations := extracted_locations c;
     geocoded_locations := geocoded_locations c;
     processing_status := processing_status c;
     error_messages := error_messages c ++ [msg] |}.

Definition with_geocoded (l : list geocoded) (c : MCPContext) : MCPContext :=
  {| session_id := session_id c; article_content := article_content c;
     extracted_locations := extracted_locations c;
     geocoded_locations := l;
     processing_status := processing_status c; error_messages := error_messages c |}.

Module MCPNewsLocationClient.

Definition log (level msg : string) : Run () := emit (Logged level msg).

(** [session_id or self.current_session_id] *)
Definition or_current (session_id : option string) : SessionRun (option string) :=
  me ← get_self;
  mret match session_id with
       | Some i => if PyStr.truthy i then Some i else current_session_id me
       | None => current_session_id me
       end.

(** [self.contexts.get(session_id)] *)
Definition contexts_get (me : client) (session_id : option string)
    : option MCPContext :=
  match session_id with
  | Some i => contexts me !! i
  | None => None
  end.

Definition get_session_context (session_id : option string)
    : SessionRun (option MCPContext) :=
  session_id ← or_current session_id;
  me ← get_self;
  mret (contexts_get me session_id).

Definition update_session_status (status : string) (session_id : option string)
    : SessionRun () :=
  session_id ← or_current session_id;
  me ← get_self;
  match session_id, contexts_get me session_id with
  | Some i, Some _ =>
      modify_contexts (alter (with_status status) i);;
      lift (log "info" ("Session " +:+ i +:+ " status updated to: " +:+ status))
  | _, _ => mret ()
  end.

Definition add_error (error_message : string) (session_id : option string)
    : SessionRun () :=
  session_id ← or_current session_id;
  me ← get_self;
  match session_id, contexts_get me session_id with
  | Some i, Some _ =>
      modify_contexts (alter (with_error error_message) i);;
      lift (log "error" ("Session " +:+ i +:+ " error: " +:+ error_message))
  | _, _ => mret ()
  end.

(** The cleaning and validation of the model's answer. *)
Definition _parse_location_response (w : world) (response : string)
    : Run (list candidate) :=
  try_except
    (let response := clean_response response in
     locations ← loads w response;
     let validated_locations :=
       filter (λ loc, is_Some (c_location loc)) locations in
     mret validated_locations)
    (λ e, match e with
          | JSONDecodeError _ => log "error" ("JSON parsing error: " +:+ exn_str e)
          | _ => log "error" ("Location parsing error: " +:+ exn_str e)
          end;;
          mret []).

Definition geocoded_as (location : candidate) (p : place) (method conf : string)
    : geocoded :=
  {| g_location := location;
     g_latitude := place_latitude p;
     g_longitude := place_longitude p;
     g_full_address := place_address p;
     g_geocoding_method := method;
     g_geocoding_confidence := conf |}.

(** The query of the primary strategy. *)
Definition primary_query (location : candidate) : Run string :=
  raw ← getitem "location" (c_location location);
  let location_name := default raw (c_standardized_name location) in
  let location_name :=
    match c_coordinates_hint location with
    | Some hint =>
        if PyStr.truthy hint then location_name +:+ " " +:+ hint else location_name
    | None => location_name
    end in
  let location_name :=
    match c_related_locations location with
    | Some related =>
        foldl (λ acc r, acc +:+ " near " +:+ r) location_name (take 2 related)
    | None => location_name
    end in
  mret location_name.

Definition primary_agent : string := "news_location_mapper_mcp".
Definition fallback_agent : string := "news_location_mapper_mcp_fallback".

Definition _geocode_with_context (w : world) (location : candidate)
    : Run (option geocoded) :=
  try_except
    (location_name ← primary_query location;
     sleep 1;;
     result ← geocode w primary_agent location_name;
     match result with
     | Some p => mret (Some (geocoded_as location p "primary" "high"))
     | None => mret None
     end)
    (λ e, log "error" ("Geocoding error: " +:+ exn_str e);; mret None).

(** The list [fallback_strategies], for a location whose name is [raw]. *)
Definition fallback_strategies (location : candidate) (raw : string) : list string :=
  [ raw;
    default raw (c_standardized_name location);
    raw +:+ ", " +:+ default "place" (c_type location) ]
  ++ match c_related_locations location with
     | Some related => (λ r, raw +:+ ", " +:+ r) <$> take 1 related
     | None => []
     end.

(** [for strategy in fallback_strategies: try: ... except: continue] *)
Fixpoint try_strategies (w : world) (location : candidate)
    (strategies : list string) : Run (option geocoded) :=
  match strategies with
  | [] => mret None
  | strategy :: rest =>
      result ← try_except
                 (sleep 1;; geocode w fallback_agent strategy)
                 (λ _, mret None);
      match result with
      | Some p => mret (Some (geocoded_as location p "fallback" "medium"))
      | None => try_strategies w location rest
      end
  end.

Definition _geocode_with_fallbacks (w : world) (location : candidate)
    : Run (option geocoded) :=
  raw ← getitem "location" (c_location location);
  try_strategies w location (fallback_strategies location raw).

(** The body of [for location in locations] of [intelligent_geocoding]. *)
Definition geocode_location (w : world)
    (geocoded_locations : list geocoded) (location : candidate)
    : Run (list geocoded) :=
  try_except
    (geocoded ← _geocode_with_context w location;
     match geocoded with
     | Some g => mret (geocoded_locations ++ [g])
     | None =>
         fallback_geocoded ← _geocode_with_fallbacks w location;
         match fallback_geocoded with
         | Some g => mret (geocoded_locations ++ [g])
         | None =>
             raw ← getitem "location" (c_location location);
             log "warning" ("Failed to geocode: " +:+ raw);;
             mret geocoded_locations
         end
     end)
    (λ e, raw ← getitem "location" (c_location location);
          log "error" ("Geocoding error for " +:+ raw +:+ ": " +:+ exn_str e);;
          mret geocoded_locations).

Definition intelligent_geocoding (w : world) (locations : list candidate)
    (session_id : option string) : SessionRun (list geocoded) :=
  session_id ← or_current session_id;
  context ← get_session_context session_id;
  match context with
  | None => raise (ValueError ("No active session found: " +:+ str_of_id session_id))
  | Some _ =>
      try_except
        (update_session_status "geocoding_locations" session_id;;
         geocoded_locations ← lift (for_each (geocode_location w) locations []);
         modify_contexts
           (match session_id with
            | Some i => alter (with_geocoded geocoded_locations) i
            | None => id
            end);;
         update_session_status "geocoding_complete" session_id;;
         mret geocoded_locations)
        (λ e, let error_msg := "Geocoding failed: " +:+ exn_str e in
              add_error error_msg session_id;;
              update_session_status "error" session_id;;
              raise e)
  end.

(** [_call_claude_async] as [_generate_enhanced_summary] calls it. *)
Definition _call_claude_async (w : world) (q : summary_request) : Run string :=
  try_except
    (ask_enhanced_summary w q)
    (λ e, log "error" ("Claude API call failed: " +:+ exn_str e);; raise e).

Definition _generate_enhanced_summary (w : world) (location : candidate)
    (context : MCPContext) : Run string :=
  try_except
    (raw ← getitem "location" (c_location location);
     let q := {| sr_name := raw;
                 sr_type := default "location" (c_type location);
                 sr_context := default "N/A" (c_context location);
                 sr_importance := default "secondary" (c_importance location);
                 sr_excerpt := PyStr.take 1500 (article_content context) |} in
     response ← _call_claude_async w q;
     mret (PyStr.strip response))
    (λ e, log "error" ("Summary generation error: " +:+ exn_str e);;
          raw ← getitem "location" (c_location location);
          mret ("Events at " +:+ raw +:+ ": "
                +:+ default "Information available in article" (c_context location))).

End MCPNewsLocationClient.

(* ===================================================================== *)
(** ** src/app.py *)
(* ===================================================================== *)

(** The dictionary [process_article_sync] builds for a kept location. *)
Record location_dict := {
  d_name : string;
  d_type : string;
  d_confidence : string;
  d_context : string;
  d_latitude : option Q;
  d_longitude : option Q;
  d_full_address : string;
  d_event_summary : string }.

(** [x if x else alt] *)
Definition or_else (x alt : string) : string :=
  if PyStr.truthy x then x else alt.

(** [x if x else alt] for a field that may be [None]. *)
Definition or_else_opt (x : option string) (alt : string) : string :=
  match x with
  | Some v => or_else v alt
  | None => alt
  end.

(** Truth value of a float or [None]. *)
Definition truthy_float (x : option Q) : bool :=
  match x with
  | Some q => negb (Qnum q =? 0)%Z
  | None => false
  end.

(** The set [non_location_words]. *)
Definition non_location_words : gset string :=
  list_to_set
    [ "the"; "and"; "or"; "but"; "in"; "on"; "at"; "to"; "for"; "of"; "with"; "by";
      "from"; "up"; "about"; "into"; "through"; "during"; "before"; "after";
      "above"; "below"; "between"; "among"; "through"; "during"; "before";
      "after"; "above"; "below"; "up"; "down"; "out"; "off"; "over"; "under";
      "again"; "further"; "then"; "once"; "here"; "there"; "when"; "where";
      "why"; "how"; "all"; "any"; "both"; "each"; "few"; "more"; "most";
      "other"; "some"; "such"; "no"; "nor"; "not"; "only"; "own"; "same";
      "so"; "than"; "too"; "very"; "can"; "will"; "just"; "should"; "now" ].

(** [f"{loc.name.lower()}_{loc.type}"] *)
Definition location_key (loc : LocationData) : string :=
  PyStr.lower (name loc) +:+ "_" +:+ type loc.

Definition to_location_dict (loc : LocationData) : location_dict :=
  {| d_name := PyStr.strip (name loc);
     d_type := or_else (type loc) "unknown";
     d_confidence := or_else (confidence loc) "medium";
     d_context := or_else (context loc) "";
     d_latitude := latitude loc;
     d_longitude := longitude loc;
     d_full_address := or_else_opt (full_address loc) "";
     d_event_summary := or_else_opt (event_summary loc) "" |}.

(** The three validation tests of the loop, each a [continue]. *)
Definition too_short_name (loc : LocationData) : bool :=
  negb (PyStr.truthy (name loc)) || (PyStr.len (PyStr.strip (name loc)) <? 2)%nat.

Definition is_non_location_word (loc : LocationData) : bool :=
  bool_decide (PyStr.strip (PyStr.lower (name loc)) ∈ non_location_words).

Definition is_number_or_date (loc : LocationData) : bool :=
  PyStr.isdigit (PyStr.strip (name loc))
  || (PyStr.any_digit (name loc) && (PyStr.len (name loc) <? 5)%nat).

(** The body of [for loc in locations_data], on the pair of [locations]
    and [seen_locations]. *)
Definition keep_location (acc : list location_dict * gset string) (loc : LocationData)
    : list location_dict * gset string :=
  let '(locations, seen_locations) := acc in
  let location_key := location_key loc in
  if bool_decide (location_key ∈ seen_locations) then acc
  else if too_short_name loc then acc
  else if is_non_location_word loc then acc
  else if is_number_or_date loc then acc
  else (locations ++ [to_location_dict loc], seen_locations ∪ {[ location_key ]}).

Definition collect_locations (locations_data : list LocationData) : list location_dict :=
  (foldl keep_location ([], ∅) locations_data).1.

(** [confidence_order.get(confidence, 2)] *)
Definition confidence_score (confidence : string) : nat :=
  if String.eqb confidence "high" then 3
  else if String.eqb confidence "medium" then 2
  else if String.eqb confidence "low" then 1
  else 2.

Definition has_coords (loc : location_dict) : nat :=
  if truthy_float (d_latitude loc) && truthy_float (d_longitude loc) then 1 else 0.

Definition sort_key (loc : location_dict) : nat * nat * string :=
  (has_coords loc, confidence_score (d_confidence loc), d_name loc).

(** Python's order on the tuples [(int, int, str)]. *)
Definition key_compare (a b : nat * nat * string) : comparison :=
  match Nat.compare a.1.1 b.1.1 with
  | Eq => match Nat.compare a.1.2 b.1.2 with
          | Eq => String.compare a.2 b.2
          | c => c
          end
  | c => c
  end.

Definition key_lt (a b : nat * nat * string) : bool :=
  match key_compare a b with Lt => true | _ => false end.

(** [a >= b] *)
Definition key_ge (a b : nat * nat * string) : bool := negb (key_lt a b).

(** [locations.sort(key=sort_key, reverse=True)]: the stable sort into
    descending order of the keys; entries with equal keys keep the order
    they had. *)
Fixpoint insert_reverse (x : location_dict) (l : list location_dict) : list location_dict :=
  match l with
  | [] => [x]
  | y :: l' =>
      if key_lt (sort_key x) (sort_key y) then y :: insert_reverse x l'
      else x :: l
  end.

Definition sort_reverse (l : list location_dict) : list location_dict :=
  foldr insert_reverse [] l.

(** [initialize_systems()], up to whether [crew_system] is an object
    ([true]) or [None]. *)
Definition initialize_systems (w : world) : Run bool :=
  λ tr, match systems_error w tr with
        | None => (Return true, tr)
        | Some msg =>
            (Return false,
             tr ++ [Streamlit (error_initialize ("Failed to initialize systems: " +:+ msg))])
        end.

(** The lines of [process_article_sync] after the call of the crew:
    collection, sort and cap. *)
Definition finish (locations_data : list LocationData) : Run (list location_dict) :=
  let locations := collect_locations locations_data in
  let locations := sort_reverse locations in
  if (50 <? length locations)%nat
  then emit (Streamlit (info_top_50 (length locations)));;
       mret (take 50 locations)
  else mret locations.

(** The hints of the handler of [process_article_sync]. *)
Definition explain (e : exn) : Run () :=
  if PyStr.contains "API" (exn_str e) || PyStr.contains "key" (PyStr.lower (exn_str e))
  then emit (Streamlit error_hint_api_key)
  else if PyStr.contains "timeout" (PyStr.lower (exn_str e))
  then emit (Streamlit error_hint_timeout)
  else if PyStr.contains "rate limit" (PyStr.lower (exn_str e))
  then emit (Streamlit error_hint_rate_limit)
  else mret ().

Definition process_article_sync (w : world) (article_text : string)
    : Run (list location_dict) :=
  try_except
    (if negb (PyStr.truthy article_text) || negb (PyStr.truthy (PyStr.strip article_text))
     then mret []
     else if (PyStr.len (PyStr.strip article_text) <? 10)%nat
     then emit (Streamlit warning_too_short);; mret []
     else
       article_text ←
         (if (10000 <? PyStr.len article_text)%nat
          then emit (Streamlit info_truncated);; mret (PyStr.take 10000 article_text)
          else mret article_text);
       crew_system ← initialize_systems w;
       locations_data ←
         (if crew_system : bool
          then NewsLocationMappingCrew.extract_and_process_locations w article_text
          else raise (AttributeError
                 "'NoneType' object has no attribute 'extract_and_process_locations'"));
       finish locations_data)
    (λ e, let error_msg := "Processing error: " +:+ exn_str e in
          emit (Streamlit (error_processing error_msg));;
          explain e;;
          mret []).

(* ===================================================================== *)
(** ** Vocabulary of the statements *)
(* ===================================================================== *)

(** The events of a sequence of fallback lookups: before each lookup the
    client sleeps one second. *)
Definition attempts (queries : list string) (replies : list geo_reply) : list event :=
  concat (zip_with (λ q r, [Slept 1; Geocoded MCPNewsLocationClient.fallback_agent q r])
            queries replies).

Definition is_hit (r : geo_reply) : bool :=
  match r with Found _ => true | _ => false end.

(** A candidate with the four keys the crew reads. *)
Definition simple_candidate (location type confidence context : string) : candidate :=
  {| c_location := Some location; c_standardized_name := None;
     c_type := Some type; c_confidence := Some confidence;
     c_context := Some context; c_coordinates_hint := None;
     c_related_locations := None; c_importance := None |}.

(** A world for examples: the model's answer to the extraction prompt
    parses to [candidates], the summariser's model is down, and the
    geocoding service knows [known] (query, latitude, longitude). *)
Definition example_world (candidates : list candidate) (known : list (string * (Q * Q)))
    : world :=
  {| json_loads := λ _, Parsed candidates;
     systems_error := λ _, None;
     extraction_model := λ _ _, Says "[...]";
     summary_model := λ _ _ _ _, ModelFails "overloaded";
     enhanced_summary_model := λ _ _, ModelFails "overloaded";
     nominatim := λ _ _ query,
       match list_find (λ k, k.1 = query) known with
       | Some (_, (_, (lat, lon))) =>
           Found {| place_latitude := lat; place_longitude := lon;
                    place_address := query |}
       | None => NoMatch
       end |}.

Definition paris : Q * Q := (4885 # 100, 235 # 100).
Definition london : Q * Q := (5151 # 100, (-13) # 100).

Definition empty_context : MCPContext :=
  {| session_id := "s"; article_content := ""; extracted_locations := [];
     geocoded_locations := []; processing_status := "initialized";
     error_messages := [] |}.

(** A context of 120 characters. *)
Definition long_context : string := PyStr.replicate 120 "x"%char.

Definition paris_candidate : candidate :=
  simple_candidate "Paris" "city" "high" long_context.

Definition springfield : candidate :=
  {| c_location := Some "Springfield"; c_standardized_name := None;
     c_type := Some "city"; c_confidence := Some "medium";
     c_context := Some "a meeting in Springfield"; c_coordinates_hint := None;
     c_related_locations := Some ["Illinois"; "Chicago"]; c_importance := None |}.

Definition is_extraction (e : event) : bool :=
  match e with Extraction _ _ => true | _ => false end.

(** The text [process_article_sync] hands to the crew, and the events
    before the call, for a text that passed the validation. *)
Definition prepared_text (article_text : string) : string :=
  if (10000 <? PyStr.len article_text)%nat
  then PyStr.take 10000 article_text else article_text.

Definition prepared_trace (article_text : string) (tr : list event) : list event :=
  if (10000 <? PyStr.len article_text)%nat
  then tr ++ [Streamlit info_truncated] else tr.

(** The text is rejected by the validation of [process_article_sync]. *)
Definition rejected (article_text : string) : bool :=
  negb (PyStr.truthy article_text)
  || negb (PyStr.truthy (PyStr.strip article_text))
  || (PyStr.len (PyStr.strip article_text) <? 10)%nat.

(** The list the crew returns to [process_article_sync]. *)
Definition crew_data (w : world) (article_text : string) (tr : list event)
    : list LocationData :=
  match result_of (NewsLocationMappingCrew.extract_and_process_locations w
                     (prepared_text article_text) (prepared_trace article_text tr)) with
  | Return data => data
  | Raise _ => []
  end.

(** The list [process_article_sync] returns ([[]] for an exception, which
    its handler never lets through). *)
Definition output (w : world) (article_text : string) (tr : list event)
    : list location_dict :=
  match result_of (process_article_sync w article_text tr) with
  | Return locations => locations
  | Raise _ => []
  end.

(** The post-filter of the loop: the location is dropped by one of the
    three tests. *)
Definition dropped (loc : LocationData) : bool :=
  too_short_name loc || is_non_location_word loc || is_number_or_date loc.


(** [loc] is the first location of [data] with its key that passes the
    post-filter. *)
Definition first_seen (data : list LocationData) (loc : LocationData) : Prop :=
  dropped loc = false
  ∧ ∃ before after,
      data = before ++ loc :: after
      ∧ Forall (λ earlier, location_key earlier = location_key loc →
                           dropped earlier = true) before.


(** A location the crew built from one of [candidates], with the
    coordinates of a match. *)
Definition built_from (candidates : list candidate) (loc : LocationData) : Prop :=
  (∃ c, c ∈ candidates
        ∧ c_location c = Some (name loc) ∧ c_type c = Some (type loc))
  ∧ is_Some (latitude loc) ∧ is_Some (longitude loc).

(** The order of the sort: the key of the earlier entry is at least the
    key of the later one. *)
Definition descending (a b : location_dict) : Prop :=
  key_ge (sort_key a) (sort_key b) = true.

(** The post-filter in the words of the specification: the trimmed name
    is under 2 characters, or the lower-cased trimmed name is a stopword,
    or the name is purely numeric (white space around it apart), or the
    name holds a digit and is shorter than 5 characters. *)
Definition spec_post_filter (loc : LocationData) : Prop :=
  PyStr.len (PyStr.strip (name loc)) < 2
  ∨ PyStr.lower (PyStr.strip (name loc)) ∈ non_location_words
  ∨ PyStr.isdigit (PyStr.strip (name loc)) = true
  ∨ (PyStr.any_digit (name loc) = true ∧ PyStr.len (name loc) < 5).

Definition two_paris : list candidate :=
  [ simple_candidate "Paris" "city" "high" "Talks opened in Paris.";
    simple_candidate "Paris" "city" "low" "Paris hosted the summit." ].



Definition paris_known : list (string * (Q * Q)) :=
  [ ("Paris", paris); ("Paris ", paris); ("123", paris) ].

Definition paris_article : string := "Talks opened in Paris. Paris hosted the summit.".





(** A candidate without the key 'context'. *)
Definition london_without_context : candidate :=
  {| c_location := Some "London"; c_standardized_name := None;
     c_type := Some "city"; c_confidence := Some "high";
     c_context := None; c_coordinates_hint := None;
     c_related_locations := None; c_importance := None |}.

Definition paris_alone : list candidate :=
  [ simple_candidate "Paris" "city" "high" "Talks opened in Paris." ].

Definition paris_and_broken_london : list candidate :=
  paris_alone ++ [ london_without_context ].

Definition paris_london_known : list (string * (Q * Q)) :=
  [ ("Paris", paris); ("London", london) ].

(** The sort key in the words of the specification: [hasCoordinates] is 1
    when the entry has coordinates (a latitude and a longitude) and 0
    otherwise. *)
Definition spec_sort_key (d : location_dict) : nat * nat * string :=
  (if bool_decide (is_Some (d_latitude d) ∧ is_Some (d_longitude d)) then 1 else 0,
   confidence_score (d_confidence d), d_name d).

(** Greenwich, on the prime meridian: its longitude is 0. *)
Definition greenwich : Q * Q := (5148 # 100, 0 # 1).

Definition greenwich_and_paris : list candidate :=
  [ simple_candidate "Greenwich" "city" "high" "The observatory at Greenwich.";
    simple_candidate "Paris" "city" "low" "A train from Paris." ].

Definition greenwich_known : list (string * (Q * Q)) :=
  [ ("Greenwich", greenwich); ("Paris", paris) ].

(** The geocoded dictionary carries the coordinates and the address of a
    match the service returned. *)
Definition from_match (w : world) (g : geocoded) : Prop :=
  ∃ h agent query p,
    nominatim w h agent query = Found p
    ∧ g_latitude g = place_latitude p
    ∧ g_longitude g = place_longitude p
    ∧ g_full_address g = place_address p.

(** The session a method of the client works on:
    [session_id or self.current_session_id]. *)
Definition active_session (me : client) (session_id : option string) : option string :=
  match session_id with
  | Some i => if PyStr.truthy i then Some i else current_session_id me
  | None => current_session_id me
  end.

Definition named (location : candidate) : Prop := is_Some (c_location location).

(** A client with one session, "s". *)
Definition one_session : session_state :=
  {| self := {| contexts := {[ "s" := empty_context ]};
                current_session_id := Some "s" |};
     history := [] |}.

Definition atlantis : candidate :=
  simple_candidate "Atlantis" "city" "low" "the lost city of Atlantis".



(* ===================================================================== *)
(** ** Vocabulary of the further properties *)
(* ===================================================================== *)

(** Every lookup of the geocoding service in [tr] comes right after a
    sleep of at least one second; [slept] tells whether the event before
    [tr] was such a sleep. *)
Fixpoint paced_after (slept : bool) (tr : list event) : bool :=
  match tr with
  | [] => true
  | Geocoded _ _ _ :: rest => slept && paced_after false rest
  | Slept seconds :: rest => paced_after (1 <=? seconds)%nat rest
  | _ :: rest => paced_after false rest
  end.

Definition paced (tr : list event) : bool := paced_after false tr.

(** The number of lookups of the geocoding service in [tr]. *)
Fixpoint lookups (tr : list event) : nat :=
  match tr with
  | [] => 0
  | Geocoded _ _ _ :: rest => S (lookups rest)
  | _ :: rest => lookups rest
  end.

(** The article text a call of a model carries is within the limit of its
    prompt: 10,000 characters for the extraction, 2000 for the summariser
    of the crew, 1500 for the summariser of the session client. *)
Definition prompt_bounded (e : event) : Prop :=
  match e with
  | Extraction text _ => PyStr.len text ≤ 10000
  | Summary _ _ article _ => PyStr.len article ≤ 2000
  | EnhancedSummary q _ => PyStr.len (sr_excerpt q) ≤ 1500
  | _ => True
  end.

(** The events of the loop of the crew over the candidates of an article:
    a sleep of one second and a lookup for each candidate, and a call of
    the summariser's model, with the first 2000 characters of the article,
    after a match. *)
Inductive crew_events (article_text : string) : list event → Prop :=
  | crew_events_nil : crew_events article_text []
  | crew_events_lookup location r rest :
      crew_events article_text rest →
      crew_events article_text
        (Slept 1 :: Geocoded GeocodingTool.user_agent location r :: rest)
  | crew_events_summary location context r rest :
      crew_events article_text rest →
      crew_events article_text
        (Summary location context (PyStr.take 2000 article_text) r :: rest).

(** The two locations the crew builds in [example_world two_paris paris_known]. *)
Definition paris_first : LocationData :=
  {| name := "Paris"; type := "city"; confidence := "high";
     context := "Talks opened in Paris.";
     latitude := Some (fst paris); longitude := Some (snd paris);
     full_address := Some "Paris";
     event_summary := Some "Events at Paris: Talks opened in Paris...." |}.

Definition paris_second : LocationData :=
  {| name := "Paris"; type := "city"; confidence := "low";
     context := "Paris hosted the summit.";
     latitude := Some (fst paris); longitude := Some (snd paris);
     full_address := Some "Paris";
     event_summary := Some "Events at Paris: Paris hosted the summit...." |}.

(* ===================================================================== *)
(** ** src/mcp_integration.py: the sessions and the summaries *)
(* ===================================================================== *)

Definition set_self (me : client) : SessionRun () :=
  λ s, (Return (), {| self := me; history := history s |}).

(** The context [create_session] stores for a new session. *)
Definition new_context (session_id : string) : MCPContext :=
  {| session_id := session_id; article_content := "";
     extracted_locations := []; geocoded_locations := [];
     processing_status := "initialized"; error_messages := [] |}.

(** [MCPNewsLocationClient.create_session]; [uuid4] is the string
    [str(uuid.uuid4())] gives, used when no id is passed. *)
Definition create_session (uuid4 : string) (session_id : option string)
    : SessionRun string :=
  let session_id := match session_id with
                    | None => uuid4
                    | Some i => i
                    end in
  me ← get_self;
  set_self {| contexts := <[session_id := new_context session_id]> (contexts me);
              current_session_id := Some session_id |};;
  lift (MCPNewsLocationClient.log "info" ("Created MCP session: " +:+ session_id));;
  mret session_id.

(** The dictionary [get_session_summary] returns: its keys "session_id",
    "status", "locations_extracted", "locations_geocoded" and "errors", or
    the key "error" alone.  The key "metadata" holds the free-form
    [metadata] of the context, which [MCPContext] leaves out. *)
Inductive session_summary :=
  | summary_of (session_id : option string) (status : string)
      (locations_extracted locations_geocoded : nat) (errors : list string)
  | summary_error (error : string).

(** [MCPNewsLocationClient.get_session_summary] *)
Definition get_session_summary (session_id : option string)
    : SessionRun session_summary :=
  session_id ← MCPNewsLocationClient.or_current session_id;
  context ← MCPNewsLocationClient.get_session_context session_id;
  match context with
  | None => mret (summary_error "Session not found")
  | Some c =>
      mret (summary_of session_id (processing_status c)
              (length (extracted_locations c)) (length (geocoded_locations c))
              (error_messages c))
  end.

(** A geocoded dictionary after [location['event_summary'] = ...]. *)
Record enhanced := {
  e_location : geocoded;
  e_event_summary : string }.

(** The body of [for location in locations] of
    [generate_contextual_summaries]. *)
Definition summarize_location (w : world) (context : MCPContext)
    (enhanced_locations : list enhanced) (location : geocoded)
    : Run (list enhanced) :=
  try_except
    (summary ← MCPNewsLocationClient._generate_enhanced_summary w
                 (g_location location) context;
     mret (enhanced_locations
           ++ [{| e_location := location; e_event_summary := summary |}]))
    (λ e, raw ← getitem "location" (c_location (g_location location));
          MCPNewsLocationClient.log "error"
            ("Summary generation error for " +:+ raw +:+ ": " +:+ exn_str e);;
          raw ← getitem "location" (c_location (g_location location));
          let summary :=
            "Events at " +:+ raw +:+ ": "
            +:+ default "Information available in article"
                  (c_context (g_location location)) in
          mret (enhanced_locations
                ++ [{| e_location := location; e_event_summary := summary |}])).

(** [MCPNewsLocationClient.generate_contextual_summaries].  The context
    object the summariser reads is the one of the session, whose status
    was just set. *)
Definition generate_contextual_summaries (w : world) (locations : list geocoded)
    (session_id : option string) : SessionRun (list enhanced) :=
  session_id ← MCPNewsLocationClient.or_current session_id;
  context ← MCPNewsLocationClient.get_session_context session_id;
  match context with
  | None => raise (ValueError ("No active session found: " +:+ str_of_id session_id))
  | Some context =>
      try_except
        (MCPNewsLocationClient.update_session_status "generating_summaries" session_id;;
         enhanced_locations ←
           lift (for_each
                   (summarize_location w (with_status "generating_summaries" context))
                   locations []);
         MCPNewsLocationClient.update_session_status "summaries_complete" session_id;;
         mret enhanced_locations)
        (λ e, let error_msg := "Summary generation failed: " +:+ exn_str e in
              MCPNewsLocationClient.add_error error_msg session_id;;
              MCPNewsLocationClient.update_session_status "error" session_id;;
              raise e)
  end.

(** The text the summariser of the session client falls back on. *)
Definition enhanced_fallback (location : candidate) : string :=
  "Events at " +:+ default "" (c_location location) +:+ ": "
  +:+ default "Information available in article" (c_context location).

(** A client with two sessions, "s" (current) and "t". *)
Definition two_sessions : session_state :=
  {| self := {| contexts := {[ "s" := empty_context;
                               "t" := new_context "t" ]};
                current_session_id := Some "s" |};
     history := [] |}.

(** A candidate without the key 'location'. *)
Definition nameless : candidate :=
  {| c_location := None; c_standardized_name := None;
     c_type := Some "city"; c_confidence := Some "high";
     c_context := Some "somewhere"; c_coordinates_hint := None;
     c_related_locations := None; c_importance := None |}.


(* ===================================================================== *)
(** ** Python strings: lines and pieces *)
(* ===================================================================== *)

Module PyText.

(** The line boundaries of [str.splitlines] among U+0000..U+00FF: LF, VT,
    FF, CR, FS, GS, RS and NEL. *)
Definition is_linebreak (c : ascii) : bool :=
  let n := PyStr.code c in
  PyStr.between 10 13 n || PyStr.between 28 30 n || (n =? 133)%N.

Definition is_cr (c : ascii) : bool := (PyStr.code c =? 13)%N.
Definition is_lf (c : ascii) : bool := (PyStr.code c =? 10)%N.
Definition is_blank (c : ascii) : bool := (PyStr.code c =? 32)%N.

(** [c] goes in front of the first of [pieces]. *)
Definition cons_head (c : ascii) (pieces : list string) : list string :=
  match pieces with
  | [] => [String c ""]
  | p :: rest => String c p :: rest
  end.

(** [s.splitlines()]: the lines without their boundaries; CR LF is one
    boundary, and a boundary at the end opens no new line. *)
Fixpoint splitlines (s : string) : list string :=
  match s with
  | "" => []
  | String c s' =>
      if is_linebreak c
      then "" :: match s' with
                 | String c' s'' =>
                     if is_cr c && is_lf c' then splitlines s'' else splitlines s'
                 | "" => []
                 end
      else cons_head c (splitlines s')
  end.

(** [s.split("  ")]: the pieces between the occurrences of two blanks,
    found from the left. *)
Fixpoint split_two_blanks (s : string) : list string :=
  match s with
  | "" => [""]
  | String c s' =>
      match s' with
      | String c' s'' =>
          if is_blank c && is_blank c'
          then "" :: split_two_blanks s''
          else cons_head c (split_two_blanks s')
      | "" => [String c ""]
      end
  end.

(** The string of the character LF. *)
Definition newline : string := String "010"%char "".

(** No character of [s] is a line boundary. *)
Fixpoint one_line (s : string) : bool :=
  match s with
  | "" => true
  | String c s' => negb (is_linebreak c) && one_line s'
  end.

End PyText.

(* ===================================================================== *)
(** ** src/app.py and agents/location_agents.py: fetching an article *)
(* ===================================================================== *)

(** The cleaning of the text of a page, the same three lines in
    [NewsLocationChatbot.extract_article_from_url] and in
    [ArticleExtractorTool._run]: the lines are trimmed and cut at every two
    blanks, the pieces are trimmed, and the pieces of more than 10
    characters are joined by LF. *)
Definition clean_text (content : string) : string :=
  let lines := PyStr.strip <$> PyText.splitlines content in
  let chunks := PyStr.strip <$> (lines ≫= PyText.split_two_blanks) in
  String.concat PyText.newline
    (filter (λ chunk, PyStr.truthy chunk && (10 <? PyStr.len chunk)%nat) chunks).

(** A page as the selectors of [extract_article_from_url] see it, once
    BeautifulSoup has parsed it (which is taken not to raise): the texts
    [get_text()] gives for the first [article] tag, for the first [div]
    whose class has one of the key words, for the [main] tag, for every
    [div], and for the whole document, all after the unwanted elements
    were removed; and the text of the whole document as it came. *)
Record page := {
  p_content_type : option string;
  p_article : option string;
  p_content_div : option string;
  p_main : option string;
  p_all_divs : list string;
  p_text : string;
  p_raw_text : string }.

(** What [requests.get] followed by [raise_for_status] does, by the
    handler of [extract_article_from_url] the exception reaches; [msg] is
    [str(e)]. *)
Inductive fetch_reply :=
  | Fetched (p : page)
  | Timeout (msg : string)
  | ConnectionError (msg : string)
  | HTTPError (msg status_code reason : string)
  | RequestException (msg : string)
  | OtherException (msg : string).

Inductive web_event :=
  | Requested (url : string) (timeout : nat) (r : fetch_reply).

(** The network: it sees the requests made so far. *)
Definition web : Type := list web_event → string → nat → fetch_reply.

Definition requests_get (www : web) (url : string) (timeout : nat)
    : M (list web_event) fetch_reply :=
  λ h, let r := www h url timeout in (Return r, h ++ [Requested url timeout r]).

Definition invalid_patterns : list string :=
  ["localhost"; "127.0.0.1"; "example.com"; "test.com"].

Definition error_indicators : list string :=
  ["404 not found"; "page not found"; "access denied"; "forbidden"].

(** [url] with the scheme [extract_article_from_url] puts in front. *)
Definition with_scheme (url : string) : string :=
  if PyStr.startswith "http://" url || PyStr.startswith "https://" url
  then url else "https://" +:+ url.

(** [max(all_divs, key=lambda div: len(div.get_text()))]: the first of the
    longest. *)
Definition largest (first : string) (rest : list string) : string :=
  foldl (λ best div, if (PyStr.len best <? PyStr.len div)%nat then div else best)
    first rest.

(** The four strategies of [extract_article_from_url]. *)
Definition main_content (p : page) : string :=
  match p_article p with
  | Some t => t
  | None =>
      match p_content_div p with
      | Some t => t
      | None =>
          match p_main p with
          | Some t => t
          | None =>
              match p_all_divs p with
              | first :: rest => largest first rest
              | [] => p_text p
              end
          end
      end
  end.

(** [NewsLocationChatbot.extract_article_from_url] *)
Definition extract_article_from_url (www : web) (url : string)
    : M (list web_event) string :=
  if negb (PyStr.truthy (PyStr.strip url))
  then mret "Error: Empty URL provided"
  else
    let url := with_scheme url in
    if existsb (λ pattern, PyStr.contains pattern (PyStr.lower url)) invalid_patterns
    then mret ("Error: Invalid URL pattern detected: " +:+ url)
    else
      r ← requests_get www url 60;
      match r with
      | Fetched p =>
          let content_type := PyStr.lower (default "" (p_content_type p)) in
          if negb (PyStr.contains "text/html" content_type)
          then mret ("Error: URL does not contain HTML content (content-type: "
                     +:+ content_type +:+ ")")
          else
            let content := main_content p in
            let clean_content := clean_text content in
            if (PyStr.len (PyStr.strip clean_content) <? 50)%nat
            then mret "Error: Extracted content is too short (less than 50 characters). This may not be a valid news article."
            else if existsb (λ indicator,
                               PyStr.contains indicator (PyStr.lower clean_content))
                      error_indicators
            then mret "Error: The URL appears to lead to an error page or inaccessible content."
            else mret (PyStr.take 5000 clean_content)
      | Timeout _ =>
          r ← requests_get www url 120;
          match r with
          | Fetched p =>
              let content := p_raw_text p in
              mret (if PyStr.truthy content then PyStr.take 5000 content
                    else "Error: No content found after retry")
          | _ => mret "Error: Request timed out even after retry. The website may be slow or unresponsive."
          end
      | ConnectionError _ =>
          mret "Error: Could not connect to the website. Please check the URL and your internet connection."
      | HTTPError _ status_code reason =>
          mret ("Error: HTTP error occurred: " +:+ status_code +:+ " - " +:+ reason)
      | RequestException msg => mret ("Error: Request failed: " +:+ msg)
      | OtherException msg => mret ("Error extracting article: " +:+ msg)
      end.

(** A page with an article of three sentences. *)
Definition news_page : page :=
  {| p_content_type := Some "text/html; charset=utf-8";
     p_article := Some "Talks opened in Paris on Monday.  The summit brings together forty countries.  Delegates arrived over the weekend.";
     p_content_div := None; p_main := None; p_all_divs := [];
     p_text := "menu Talks opened in Paris on Monday.";
     p_raw_text := "menu Talks opened in Paris on Monday. script" |}.

(** A network that serves [news_page] for every request. *)
Definition news_site : web := λ _ _ _, Fetched news_page.

(* ===================================================================== *)
(** * Properties *)
(* ===================================================================== *)

(** ** Strings *)

Section strings.
Import PyStr.

Lemma app_cons c (s t : string) : String c s +:+ t = String c (s +:+ t).
Proof. reflexivity. Qed.

Lemma app_empty (t : string) : "" +:+ t = t.
Proof. reflexivity. Qed.

Lemma len_app s t : len (s +:+ t) = (len s + len t)%nat.
Proof. induction s as [|c s IH]; simpl; [done | by rewrite IH]. Qed.

Lemma take_app_len s t : PyStr.take (len s) (s +:+ t) = s.
Proof. induction s as [|c s IH]; simpl; [by destruct t | by rewrite IH]. Qed.

Lemma drop_app_len s t : PyStr.drop (len s) (s +:+ t) = t.
Proof. induction s as [|c s IH]; simpl; [by destruct t | done]. Qed.

Lemma len_take n s : len (PyStr.take n s) = (n `min` len s)%nat.
Proof.
  revert s; induction n as [|n IH]; intros [|c s]; simpl; try done.
  by rewrite IH.
Qed.

Lemma take_all n s : (len s ≤ n)%nat → PyStr.take n s = s.
Proof.
  revert s; induction n as [|n IH]; intros [|c s]; simpl; try done; try lia.
  intros ?. rewrite IH; [done | lia].
Qed.

Lemma app_assoc_str (s t u : string) : (s +:+ t) +:+ u = s +:+ (t +:+ u).
Proof. induction s as [|c s IH]; [done | by rewrite !app_cons, IH]. Qed.

Lemma isspace_lower_char c : isspace_char (lower_char c) = isspace_char c.
Proof. by destruct c as [[] [] [] [] [] [] [] []]. Qed.

Lemma lower_lstrip s : lower (lstrip s) = lstrip (lower s).
Proof.
  induction s as [|c s IH]; simpl; [done |].
  rewrite isspace_lower_char. by destruct (isspace_char c).
Qed.

Lemma lower_rstrip s : lower (rstrip s) = rstrip (lower s).
Proof.
  induction s as [|c s IH]; simpl; [done |].
  rewrite <- IH, isspace_lower_char.
  destruct (rstrip s); simpl; [by destruct (isspace_char c) | done].
Qed.

(** Lower-casing and trimming commute. *)
Lemma lower_strip s : lower (strip s) = strip (lower s).
Proof. unfold strip. by rewrite lower_rstrip, lower_lstrip. Qed.

Lemma truthy_false s : truthy s = false ↔ s = "".
Proof.
  unfold truthy. rewrite negb_false_iff. apply String.eqb_eq.
Qed.

Lemma truthy_true s : truthy s = true ↔ s ≠ "".
Proof.
  unfold truthy. rewrite negb_true_iff. apply String.eqb_neq.
Qed.

End strings.

(** ** Running a computation *)

Lemma run_bind {S A B} (m : M S A) (f : A → M S B) s :
  (m ≫= f) s
  = match m s with
    | (Return a, s') => f a s'
    | (Raise e, s') => (Raise e, s')
    end.
Proof. reflexivity. Qed.

Lemma run_ret {S A} (a : A) (s : S) : (mret a : M S A) s = (Return a, s).
Proof. reflexivity. Qed.

Lemma run_try_except {S A} (body : M S A) handler s :
  try_except body handler s
  = match body s with
    | (Return a, s') => (Return a, s')
    | (Raise e, s') => handler e s'
    end.
Proof. reflexivity. Qed.

(** ** The code fence *)

Section fence.
Import PyStr.

Lemma drop_take_app s p m :
  PyStr.drop (len s) (PyStr.take m (s +:+ p)) = PyStr.take (m - len s) p.
Proof.
  revert m; induction s as [|c s IH]; intros m.
  - rewrite app_empty. simpl. by rewrite Nat.sub_0_r.
  - rewrite app_cons. destruct m as [|m]; simpl; [by destruct p | apply IH].
Qed.

Lemma slice_prefix s p b :
  slice (len s) b (s +:+ p) = PyStr.take (len p - b) p.
Proof.
  unfold slice. rewrite drop_take_app, len_app. f_equal. lia.
Qed.

Lemma rstrip_app s t : t ≠ "" → rstrip t = t → rstrip (s +:+ t) = s +:+ t.
Proof.
  intros Ht Hr. induction s as [|c s IH]; [done |].
  rewrite app_cons. simpl. rewrite IH.
  destruct (s +:+ t) eqn:E; [| done].
  destruct s; [by rewrite app_empty in E | by rewrite app_cons in E].
Qed.

Lemma strip_fenced s : strip ("```json" +:+ s +:+ "```") = "```json" +:+ s +:+ "```".
Proof.
  unfold strip. rewrite <- app_assoc_str.
  replace (lstrip (("```json" +:+ s) +:+ "```")) with (("```json" +:+ s) +:+ "```")
    by done.
  by apply rstrip_app.
Qed.

Lemma clean_response_json payload :
  clean_response ("```json" +:+ payload) = PyStr.take (len payload - 3) payload.
Proof.
  unfold clean_response.
  assert (startswith "```json" ("```json" +:+ payload) = true) as ->
    by (unfold startswith; by destruct payload).
  apply (slice_prefix "```json").
Qed.

Lemma clean_response_plain payload :
  startswith "json" payload = false →
  clean_response ("```" +:+ payload) = PyStr.take (len payload - 3) payload.
Proof.
  intros H. unfold clean_response.
  assert (startswith "```json" ("```" +:+ payload) = false) as -> by exact H.
  assert (startswith "```" ("```" +:+ payload) = true) as ->
    by (unfold startswith; by destruct payload).
  apply (slice_prefix "```").
Qed.

Lemma clean_response_fenced s : clean_response ("```json" +:+ s +:+ "```") = s.
Proof.
  rewrite clean_response_json, len_app.
  replace (len s + len "```" - 3)%nat with (len s) by (simpl; lia).
  apply take_app_len.
Qed.

End fence.

(** C10.  The removal of the code fence cuts the last three characters
    of every answer that begins with a fence, whatever they are: after the
    opening "```json" (or "```") the result is the rest of the answer less
    its last three characters.  So an answer fenced on both sides gives
    back exactly what is between the fences, in [clean_response], in the
    extraction tool (which trims the answer first) and in the parser of
    the session client; and an answer that opens a fence and never closes
    it loses the last three characters of its payload. *)
Theorem clean_response_fence :
  (∀ payload,
     clean_response ("```json" +:+ payload)
     = PyStr.take (PyStr.len payload - 3) payload)
  ∧ (∀ payload,
       PyStr.startswith "json" payload = false →
       clean_response ("```" +:+ payload)
       = PyStr.take (PyStr.len payload - 3) payload)
  ∧ (∀ s, clean_response ("```json" +:+ s +:+ "```") = s)
  ∧ (∀ w text tr s,
       extraction_model w tr text = Says ("```json" +:+ s +:+ "```") →
       result_of (LocationExtractionTool._run w text tr) = Return s)
  ∧ (∀ w tr s locations,
       json_loads w s = Parsed locations →
       result_of (MCPNewsLocationClient._parse_location_response w
                    ("```json" +:+ s +:+ "```") tr)
       = Return (filter (λ loc, is_Some (c_location loc)) locations))
  ∧ (PyStr.endswith "```" "```json[1, 2]" = false
     ∧ clean_response "```json[1, 2]" = "[1,"
     ∧ "[1," +:+ " 2]" = "[1, 2]").
Proof.
  split; [exact clean_response_json |].
  split; [exact clean_response_plain |].
  split; [exact clean_response_fenced |].
  split; [| split].
  - intros w text tr s Hsay.
    unfold LocationExtractionTool._run, try_except, result_of, mbind, M_bind, bind,
      ask_extraction.
    rewrite Hsay. simpl. by rewrite strip_fenced, clean_response_fenced.
  - intros w tr s locations Hparse.
    unfold MCPNewsLocationClient._parse_location_response, try_except, result_of,
      mbind, M_bind, bind, loads.
    rewrite clean_response_fenced, Hparse. done.
  - by vm_compute.
Qed.

(** A fenced answer of the model reaches the caller of the extraction
    tool without its fences. *)
Lemma clean_response_fence_witness :
  result_of (LocationExtractionTool._run
               {| json_loads := λ _, Parsed [];
                  systems_error := λ _, None;
                  extraction_model := λ _ _, Says ("```json" +:+ "[]" +:+ "```");
                  summary_model := λ _ _ _ _, ModelFails "";
                  enhanced_summary_model := λ _ _, ModelFails "";
                  nominatim := λ _ _ _, NoMatch |}
               "Meeting in Paris." [])
  = Return "[]".
Proof.
  apply (proj1 (proj2 (proj2 (proj2 clean_response_fence)))). reflexivity.
Defined.

(** ** The summarisers *)

(** C4, as the code has it.  When the model call of the summariser raises,
    the tool of the crew returns "Events at {location}: " followed by the
    first 100 characters of the context and "..."; the summariser of the
    session client returns "Events at {location}: " followed by the whole
    context, or by "Information available in article" when the location
    has no context, with no truncation and no suffix.  Neither raises. *)
Theorem summary_fallback :
  (∀ w location context full_article tr msg,
     summary_model w tr location context (PyStr.take 2000 full_article)
     = ModelFails msg →
     result_of (EventSummarizationTool._run w location context full_article tr)
     = Return ("Events at " +:+ location +:+ ": "
               +:+ PyStr.take 100 context +:+ "..."))
  ∧ (∀ w location raw session tr msg,
       c_location location = Some raw →
       enhanced_summary_model w tr
         {| sr_name := raw;
            sr_type := default "location" (c_type location);
            sr_context := default "N/A" (c_context location);
            sr_importance := default "secondary" (c_importance location);
            sr_excerpt := PyStr.take 1500 (article_content session) |}
       = ModelFails msg →
       result_of (MCPNewsLocationClient._generate_enhanced_summary w location session tr)
       = Return ("Events at " +:+ raw +:+ ": "
                 +:+ default "Information available in article" (c_context location))).
Proof.
  split.
  - intros w location context full_article tr msg Hfail.
    unfold EventSummarizationTool._run, try_except, result_of, mbind, M_bind, bind,
      ask_summary.
    by rewrite Hfail.
  - intros w location raw session tr msg Hraw Hfail.
    unfold MCPNewsLocationClient._generate_enhanced_summary,
      MCPNewsLocationClient._call_claude_async, try_except, result_of, mbind,
      M_bind, bind, ask_enhanced_summary.
    rewrite Hraw. unfold getitem, mret, M_ret, ret. cbv beta iota zeta.
    by rewrite Hfail.
Qed.

Lemma summary_fallback_witness :
  result_of (EventSummarizationTool._run (example_world [] []) "Paris" long_context
               "Talks were held in Paris." [])
  = Return ("Events at Paris: " +:+ PyStr.replicate 100 "x"%char +:+ "...")
  ∧ result_of (MCPNewsLocationClient._generate_enhanced_summary (example_world [] [])
                 paris_candidate empty_context [])
    = Return ("Events at Paris: " +:+ long_context).
Proof.
  split.
  - apply (proj1 summary_fallback (example_world [] []) "Paris" long_context
             "Talks were held in Paris." [] "overloaded").
    reflexivity.
  - apply (proj2 summary_fallback (example_world [] []) paris_candidate "Paris"
             empty_context [] "overloaded"); reflexivity.
Defined.

(** C4 as stated fails on the summariser of the session client: with the
    model down and a context of 120 characters it returns the whole
    context and no "...", which is not the string the claim gives. *)
Lemma enhanced_summary_not_truncated :
  result_of (MCPNewsLocationClient._generate_enhanced_summary (example_world [] [])
               paris_candidate empty_context [])
  = Return ("Events at Paris: " +:+ long_context)
  ∧ "Events at Paris: " +:+ long_context
    ≠ "Events at Paris: " +:+ PyStr.take 100 long_context +:+ "...".
Proof. split; [reflexivity | by vm_compute]. Qed.

(** ** The geocoding fallbacks *)

(** One fallback lookup: the events it adds, and what it hands back. *)
Lemma fallback_lookup w strategy tr :
  let r := nominatim w (tr ++ [Slept 1]) MCPNewsLocationClient.fallback_agent strategy in
  try_except (sleep 1;; geocode w MCPNewsLocationClient.fallback_agent strategy)
    (λ _, mret None) tr
  = (Return (match r with Found p => Some p | _ => None end),
     tr ++ [Slept 1; Geocoded MCPNewsLocationClient.fallback_agent strategy r]).
Proof.
  unfold try_except, mbind, M_bind, bind, sleep, emit, geocode. cbv zeta.
  rewrite <- (assoc_L (++)). simpl.
  by destruct (nominatim w (tr ++ [Slept 1]) _ strategy).
Qed.






(** ** The tools of the crew *)

Lemma extraction_run w text tr :
  LocationExtractionTool._run w text tr
  = (Return match extraction_model w tr text with
            | Says t => clean_response (PyStr.strip t)
            | ModelFails m => "Error extracting locations: " +:+ m
            end,
     tr ++ [Extraction text (extraction_model w tr text)]).
Proof.
  unfold LocationExtractionTool._run. rewrite run_try_except, run_bind.
  unfold ask_extraction. by destruct (extraction_model w tr text).
Qed.

Lemma geocoding_run w location_name tr :
  let r := nominatim w (tr ++ [Slept 1]) GeocodingTool.user_agent location_name in
  GeocodingTool._run w location_name tr
  = (Return match r with
            | Found p => geocode_success location_name (place_latitude p)
                           (place_longitude p) (place_address p)
            | NoMatch => geocode_failure location_name "Location not found"
            | GeoFails m => geocode_failure location_name m
            end,
     tr ++ [Slept 1; Geocoded GeocodingTool.user_agent location_name r]).
Proof.
  unfold GeocodingTool._run. rewrite run_try_except, run_bind.
  unfold sleep, emit. rewrite run_bind. unfold geocode. cbv zeta.
  rewrite <- (assoc_L (++)). simpl.
  by destruct (nominatim w (tr ++ [Slept 1]) _ location_name).
Qed.

Lemma summarizer_run w location context full_article tr :
  let r := summary_model w tr location context (PyStr.take 2000 full_article) in
  EventSummarizationTool._run w location context full_article tr
  = (Return match r with
            | Says t => PyStr.strip t
            | ModelFails _ => EventSummarizationTool.fallback location context
            end,
     tr ++ [Summary location context (PyStr.take 2000 full_article) r]).
Proof.
  unfold EventSummarizationTool._run. rewrite run_try_except, run_bind.
  unfold ask_summary. cbv zeta.
  by destruct (summary_model w tr location context _).
Qed.

Lemma run_raise {S A} (e : exn) (s : S) : (raise e : M S A) s = (Raise e, s).
Proof. reflexivity. Qed.

Lemma run_emit e tr : emit e tr = (Return (), tr ++ [e]).
Proof. reflexivity. Qed.

(** One turn of the loop of the crew: it raises, or leaves the list as it
    is, or appends a location built from the candidate with the
    coordinates of the match; and it never calls the extraction model. *)
Lemma process_location_run w text acc loc tr :
  let run := NewsLocationMappingCrew.process_location w text acc loc tr in
  (∃ new, state_of run = tr ++ new ∧ Forall (λ e, is_extraction e = false) new)
  ∧ ((∃ e, result_of run = Raise e)
     ∨ result_of run = Return acc
     ∨ ∃ ld, result_of run = Return (acc ++ [ld])
             ∧ c_location loc = Some (name ld) ∧ c_type loc = Some (type ld)
             ∧ is_Some (latitude ld) ∧ is_Some (longitude ld)).
Proof.
  unfold NewsLocationMappingCrew.process_location.
  destruct (c_location loc) as [n|] eqn:Hn; cbn [getitem].
  2:{ split; [exists []; by rewrite (right_id_L [] (++)) | left; by eexists]. }
  rewrite run_bind, run_ret, run_bind, geocoding_run. cbv zeta.
  destruct (nominatim w (tr ++ [Slept 1]) _ n) as [p| |m] eqn:Hr.
  2,3: (split; [eexists; split; [reflexivity | by repeat constructor]
               | right; left; reflexivity]).
  rewrite run_bind, run_ret.
  destruct (c_context loc) as [x|] eqn:Hx; cbn [getitem].
  2:{ split; [eexists; split; [reflexivity | by repeat constructor]
             | left; by eexists]. }
  rewrite run_bind, run_ret, run_bind, summarizer_run. cbv zeta.
  rewrite run_bind, run_ret.
  destruct (c_type loc) as [t|] eqn:Ht; cbn [getitem].
  2:{ split; [eexists; split; [by rewrite <- (assoc_L (++)) | by repeat constructor]
             | left; by eexists]. }
  rewrite run_bind, run_ret.
  destruct (c_confidence loc) as [c|] eqn:Hc; cbn [getitem].
  2:{ split; [eexists; split; [by rewrite <- (assoc_L (++)) | by repeat constructor]
             | left; by eexists]. }
  rewrite run_bind, run_ret, run_bind, run_ret, run_ret.
  split; [eexists; split; [by rewrite <- (assoc_L (++)) | by repeat constructor] |].
  right; right. eexists. split; [reflexivity |]. simpl. eauto.
Qed.

Lemma crew_loop_run w text all candidates : ∀ acc tr,
  candidates ⊆ all →
  let run := for_each (NewsLocationMappingCrew.process_location w text) candidates acc tr in
  (∃ new, state_of run = tr ++ new ∧ Forall (λ e, is_extraction e = false) new)
  ∧ ((∃ e, result_of run = Raise e)
     ∨ ∃ added, result_of run = Return (acc ++ added) ∧ Forall (built_from all) added).
Proof.
  induction candidates as [|loc rest IH]; intros acc tr Hsub run; subst run.
  - split; [exists []; by rewrite (right_id_L [] (++)) |].
    right. exists []. by rewrite (right_id_L [] (++)).
  - cbn [for_each]. rewrite run_bind.
    destruct (process_location_run w text acc loc tr) as [(new & Hst & Hnew) Hcase].
    destruct (NewsLocationMappingCrew.process_location w text acc loc tr)
      as [[acc'|e] tr'] eqn:Hrun; unfold state_of, result_of in Hst, Hcase |- *;
      simpl in Hst, Hcase |- *.
    2:{ split; [by exists new | left; by eexists]. }
    assert (rest ⊆ all) as Hrest by (intros x Hx; apply Hsub; by right).
    destruct (IH acc' tr' Hrest) as [(new' & Hst' & Hnew') Hcase'].
    unfold state_of, result_of in Hst', Hcase' |- *. split.
    { exists (new ++ new'). rewrite Hst', Hst, (assoc_L (++)).
      split; [done | by apply Forall_app]. }
    destruct Hcase' as [He | (added & Hres & Hall)]; [by left |].
    right. destruct Hcase as [[e He] | [Hacc | (ld & Hacc & Hn & Ht & Hlat & Hlon)]];
      simplify_eq.
    + by exists added.
    + exists (ld :: added). rewrite Hres, <- (assoc_L (++)). split; [done |].
      constructor; [| done]. repeat split; [| done | done].
      exists loc. split; [apply Hsub; by left | done].
Qed.

(** The crew never raises; its model is asked once, for the text it was
    given, and what it returns was built from the candidates of the
    model's answer. *)
Lemma extract_and_process_locations_run w text tr :
  ∃ data rest,
    NewsLocationMappingCrew.extract_and_process_locations w text tr
    = (Return data, tr ++ [Extraction text (extraction_model w tr text)] ++ rest)
    ∧ Forall (λ e, is_extraction e = false) rest
    ∧ (data = [] ∨ ∃ s candidates, json_loads w s = Parsed candidates
                                   ∧ Forall (built_from candidates) data).
Proof.
  unfold NewsLocationMappingCrew.extract_and_process_locations.
  rewrite run_try_except, run_bind, extraction_run, run_bind.
  set (json := match extraction_model w tr text with
               | Says t => clean_response (PyStr.strip t)
               | ModelFails m => "Error extracting locations: " +:+ m
               end).
  set (tr1 := tr ++ [Extraction text (extraction_model w tr text)]).
  unfold loads. destruct (json_loads w json) as [candidates|msg] eqn:Hparse.
  - rewrite run_ret.
    destruct (crew_loop_run w text candidates candidates [] tr1) as
      [(new & Hst & Hnew) Hcase]; [done |].
    destruct (for_each _ candidates [] tr1) as [[data|e] tr2] eqn:Hrun;
      unfold state_of, result_of in Hst, Hcase; simpl in Hst, Hcase; subst tr2.
    + exists data, new. subst tr1. rewrite <- (assoc_L (++)).
      split; [done |]. split; [done |].
      right. exists json, candidates. split; [done |].
      destruct Hcase as [[e He] | (added & Hres & Hall)]; by simplify_eq.
    + rewrite run_bind, run_emit, run_ret.
      eexists [], _. subst tr1. rewrite <- !(assoc_L (++)). split; [reflexivity |].
      split; [| by left]. apply Forall_app. by repeat constructor.
  - rewrite run_raise, run_bind, run_emit, run_ret.
    eexists [], _. subst tr1. rewrite <- !(assoc_L (++)).
    split; [reflexivity |]. split; [by repeat constructor | by left].
Qed.

(** ** The orchestrator *)

Lemma finish_run data tr :
  let sorted := sort_reverse (collect_locations data) in
  finish data tr
  = (Return (take 50 sorted),
     if (50 <? length sorted)%nat
     then tr ++ [Streamlit (info_top_50 (length sorted))] else tr).
Proof.
  unfold finish. cbv zeta.
  destruct (50 <? length (sort_reverse (collect_locations data)))%nat eqn:Hlen.
  - by rewrite run_bind, run_emit, run_ret.
  - rewrite run_ret. apply Nat.ltb_ge in Hlen. by rewrite take_ge.
Qed.

Lemma explain_no_crew tr :
  explain (AttributeError
             "'NoneType' object has no attribute 'extract_and_process_locations'") tr
  = (Return (), tr).
Proof. reflexivity. Qed.

(** [process_article_sync], case by case. *)
Lemma process_article_sync_run w article_text tr :
  process_article_sync w article_text tr
  = if negb (PyStr.truthy article_text) || negb (PyStr.truthy (PyStr.strip article_text))
    then (Return [], tr)
    else if (PyStr.len (PyStr.strip article_text) <? 10)%nat
    then (Return [], tr ++ [Streamlit warning_too_short])
    else match systems_error w (prepared_trace article_text tr) with
         | Some msg =>
             (Return [],
              prepared_trace article_text tr
              ++ [ Streamlit (error_initialize ("Failed to initialize systems: " +:+ msg));
                   Streamlit (error_processing
                     "Processing error: 'NoneType' object has no attribute 'extract_and_process_locations'") ])
         | None =>
             finish (crew_data w article_text tr)
               (state_of (NewsLocationMappingCrew.extract_and_process_locations w
                            (prepared_text article_text)
                            (prepared_trace article_text tr)))
         end.
Proof.
  unfold process_article_sync. rewrite run_try_except.
  destruct (negb (PyStr.truthy article_text)
            || negb (PyStr.truthy (PyStr.strip article_text))); [done |].
  destruct (PyStr.len (PyStr.strip article_text) <? 10)%nat;
    [by rewrite run_bind, run_emit, run_ret |].
  rewrite run_bind.
  assert ((if (10000 <? PyStr.len article_text)%nat
           then emit (Streamlit info_truncated);;
                mret (PyStr.take 10000 article_text)
           else mret article_text) tr
          = (Return (prepared_text article_text), prepared_trace article_text tr)) as ->.
  { unfold prepared_text, prepared_trace.
    destruct (10000 <? PyStr.len article_text)%nat; [| done].
    by rewrite run_bind, run_emit, run_ret. }
  rewrite run_bind. unfold initialize_systems at 1.
  destruct (systems_error w (prepared_trace article_text tr)) as [msg|] eqn:Hsys.
  - rewrite run_bind, run_raise, run_bind, run_emit, run_bind, explain_no_crew, run_ret.
    by rewrite <- (assoc_L (++)).
  - rewrite run_bind. unfold crew_data.
    destruct (extract_and_process_locations_run w (prepared_text article_text)
                (prepared_trace article_text tr)) as (data & rest & -> & _).
    unfold result_of, state_of. simpl.
    rewrite finish_run. cbv zeta. reflexivity.
Qed.

(** *** The loop over the locations of the crew *)

Lemma keep_location_eq locations seen loc :
  keep_location (locations, seen) loc
  = if bool_decide (location_key loc ∈ seen) || dropped loc
    then (locations, seen)
    else (locations ++ [to_location_dict loc], seen ∪ {[ location_key loc ]}).
Proof.
  unfold keep_location, dropped.
  destruct (bool_decide (location_key loc ∈ seen)); [done |].
  destruct (too_short_name loc); [done |].
  destruct (is_non_location_word loc); [done |].
  by destruct (is_number_or_date loc).
Qed.

Lemma first_seen_app data more loc : first_seen data loc → first_seen (data ++ more) loc.
Proof.
  intros (Hkeep & before & after & -> & Hbefore). split; [done |].
  exists before, (after ++ more). by rewrite <- (assoc_L (++)).
Qed.

Lemma keep_location_fold data : ∀ processed kept seen,
  (∀ k, k ∈ seen ↔ k ∈ location_key <$> kept) →
  NoDup (location_key <$> kept) →
  Forall (first_seen processed) kept →
  (∀ c, c ∈ processed → dropped c = false → location_key c ∈ seen) →
  ∃ kept',
    (foldl keep_location (to_location_dict <$> kept, seen) data).1
    = to_location_dict <$> kept'
    ∧ NoDup (location_key <$> kept')
    ∧ Forall (first_seen (processed ++ data)) kept'.
Proof.
  induction data as [|loc data IH]; intros processed kept seen Hseen Hnodup Hfirst Hall.
  - exists kept. by rewrite (right_id_L [] (++)).
  - cbn [foldl]. rewrite keep_location_eq.
    replace (processed ++ loc :: data) with ((processed ++ [loc]) ++ data)
      by (by rewrite <- (assoc_L (++))).
    destruct (bool_decide (location_key loc ∈ seen) || dropped loc) eqn:Hskip.
    + apply IH; [done | done | |].
      * eapply Forall_impl; [exact Hfirst |]. intros c. apply first_seen_app.
      * intros c [Hc | Hc%list_elem_of_singleton]%elem_of_app Hkeep; [by apply Hall |].
        subst c. rewrite Hkeep, orb_false_r in Hskip.
        by apply bool_decide_eq_true in Hskip.
    + apply orb_false_iff in Hskip as [Hnew%bool_decide_eq_false Hkeep].
      replace ((to_location_dict <$> kept) ++ [to_location_dict loc])
        with (to_location_dict <$> (kept ++ [loc])) by (by rewrite fmap_app).
      apply IH.
      * intros k. rewrite fmap_app, elem_of_app, elem_of_union, Hseen.
        simpl. rewrite list_elem_of_singleton, elem_of_singleton. done.
      * rewrite fmap_app. apply NoDup_app. split; [done |]. split.
        -- intros k Hk Hk'%list_elem_of_singleton. subst k. by apply Hnew, Hseen.
        -- apply NoDup_singleton.
      * apply Forall_app. split.
        -- eapply Forall_impl; [exact Hfirst |]. intros c. apply first_seen_app.
        -- constructor; [| constructor]. split; [done |].
           exists processed, []. split; [done |].
           apply Forall_forall. intros c Hc Hkey.
           destruct (dropped c) eqn:Hd; [done |].
           exfalso. apply Hnew. rewrite <- Hkey. by apply Hall.
      * intros c [Hc | Hc%list_elem_of_singleton]%elem_of_app Hk;
          apply elem_of_union; [left; by apply Hall | right].
        subst c. by apply elem_of_singleton.
Qed.

(** The loop keeps, in their order, the locations that are the first of
    their key to pass the post-filter; no two of them have the same key. *)
Lemma collect_locations_spec data :
  ∃ kept,
    collect_locations data = to_location_dict <$> kept
    ∧ NoDup (location_key <$> kept)
    ∧ Forall (first_seen data) kept.
Proof.
  unfold collect_locations.
  destruct (keep_location_fold data [] [] ∅) as (kept & Heq & Hnodup & Hfirst).
  - intros k. simpl. rewrite elem_of_nil. set_solver.
  - constructor.
  - constructor.
  - intros c Hc. by apply elem_of_nil in Hc.
  - by exists kept.
Qed.

Lemma first_seen_elem data loc : first_seen data loc → loc ∈ data.
Proof.
  intros (_ & before & after & -> & _). apply elem_of_app. right. by left.
Qed.

(** *** The sort *)

Lemma insert_reverse_perm x l : insert_reverse x l ≡ₚ x :: l.
Proof.
  induction l as [|y l IH]; simpl; [done |].
  destruct (key_lt (sort_key x) (sort_key y)); [| done].
  by rewrite IH, Permutation_swap.
Qed.

Lemma sort_reverse_perm l : sort_reverse l ≡ₚ l.
Proof.
  induction l as [|x l IH]; simpl; [done |].
  by rewrite insert_reverse_perm, IH.
Qed.

Lemma key_compare_antisym a b : key_compare b a = CompOpp (key_compare a b).
Proof.
  unfold key_compare.
  rewrite (Nat.compare_antisym a.1.1 b.1.1), (Nat.compare_antisym a.1.2 b.1.2),
    (String.compare_antisym b.2 a.2).
  destruct (a.1.1 ?= b.1.1)%nat; simpl; [| done | done].
  by destruct (a.1.2 ?= b.1.2)%nat.
Qed.

Lemma key_lt_ge a b : key_lt a b = true → key_ge b a = true.
Proof.
  unfold key_ge, key_lt. rewrite (key_compare_antisym a b).
  by destruct (key_compare a b).
Qed.

Lemma insert_reverse_sorted x l :
  Sorted descending l → Sorted descending (insert_reverse x l).
Proof.
  induction l as [|y l IH]; intros Hs; simpl; [by repeat constructor |].
  destruct (key_lt (sort_key x) (sort_key y)) eqn:Hlt.
  - apply Sorted_inv in Hs as [Hs Hhd]. constructor; [by apply IH |].
    destruct l as [|z l]; simpl.
    + constructor. by apply key_lt_ge.
    + destruct (key_lt (sort_key x) (sort_key z)); constructor.
      * by apply HdRel_inv in Hhd.
      * by apply key_lt_ge.
  - constructor; [done |]. constructor. unfold descending, key_ge. by rewrite Hlt.
Qed.

Lemma sort_reverse_sorted l : Sorted descending (sort_reverse l).
Proof.
  induction l as [|x l IH]; simpl; [constructor | by apply insert_reverse_sorted].
Qed.

(** *** What the orchestrator returns *)

Lemma output_run w article_text tr :
  ∃ data, output w article_text tr
          = take 50 (sort_reverse (collect_locations data))
          ∧ (data = [] ∨ data = crew_data w article_text tr).
Proof.
  unfold output. rewrite process_article_sync_run.
  destruct (negb _ || negb _); [exists []; by split; [| left] |].
  destruct (_ <? 10)%nat; [exists []; by split; [| left] |].
  destruct (systems_error w _); [exists []; by split; [| left] |].
  rewrite finish_run. exists (crew_data w article_text tr). by split; [| right].
Qed.

Lemma crew_data_built w article_text tr :
  crew_data w article_text tr = []
  ∨ ∃ s candidates, json_loads w s = Parsed candidates
                    ∧ Forall (built_from candidates) (crew_data w article_text tr).
Proof.
  unfold crew_data.
  destruct (extract_and_process_locations_run w (prepared_text article_text)
              (prepared_trace article_text tr)) as (data & rest & -> & _ & Hdata).
  done.
Qed.

Lemma elem_of_take_sorted data d :
  d ∈ take 50 (sort_reverse (collect_locations data)) →
  ∃ loc, d = to_location_dict loc ∧ first_seen data loc.
Proof.
  intros (i & Hi & _)%elem_of_take.
  apply list_elem_of_lookup_2 in Hi. rewrite sort_reverse_perm in Hi.
  destruct (collect_locations_spec data) as (kept & Heq & _ & Hfirst).
  rewrite Heq in Hi. apply list_elem_of_fmap in Hi as (loc & -> & Hloc).
  exists loc. split; [done |]. by eapply Forall_forall in Hfirst.
Qed.

Lemma output_first_seen w article_text tr d :
  d ∈ output w article_text tr →
  ∃ loc, d = to_location_dict loc ∧ first_seen (crew_data w article_text tr) loc.
Proof.
  destruct (output_run w article_text tr) as (data & -> & [-> | ->]).
  - intros Hd. by apply elem_of_nil in Hd.
  - apply elem_of_take_sorted.
Qed.





(** *** The post-filter *)

Lemma too_short_name_spec loc :
  too_short_name loc = true ↔ PyStr.len (PyStr.strip (name loc)) < 2.
Proof.
  unfold too_short_name. rewrite orb_true_iff, Nat.ltb_lt, negb_true_iff, truthy_false.
  split; [| by right]. intros [-> | H]; [simpl; lia | done].
Qed.

Lemma is_non_location_word_spec loc :
  is_non_location_word loc = true
  ↔ PyStr.lower (PyStr.strip (name loc)) ∈ non_location_words.
Proof.
  unfold is_non_location_word. by rewrite bool_decide_eq_true, lower_strip.
Qed.

Lemma is_number_or_date_spec loc :
  is_number_or_date loc = true
  ↔ PyStr.isdigit (PyStr.strip (name loc)) = true
    ∨ (PyStr.any_digit (name loc) = true ∧ PyStr.len (name loc) < 5).
Proof.
  unfold is_number_or_date. by rewrite orb_true_iff, andb_true_iff, Nat.ltb_lt.
Qed.

Lemma dropped_spec loc : dropped loc = true ↔ spec_post_filter loc.
Proof.
  unfold dropped, spec_post_filter.
  rewrite !orb_true_iff, too_short_name_spec, is_non_location_word_spec,
    is_number_or_date_spec.
  tauto.
Qed.

Lemma kept_name loc :
  dropped loc = false →
  2 ≤ PyStr.len (PyStr.strip (name loc))
  ∧ (PyStr.lower (PyStr.strip (name loc)) ∉ non_location_words)
  ∧ PyStr.isdigit (PyStr.strip (name loc)) = false.
Proof.
  intros Hkeep.
  assert (¬ spec_post_filter loc) as Hnot.
  { rewrite <- dropped_spec. by rewrite Hkeep. }
  unfold spec_post_filter in Hnot.
  split; [| split].
  - destruct (decide (2 ≤ PyStr.len (PyStr.strip (name loc)))); [done |].
    exfalso. apply Hnot. left. lia.
  - intros Hin. apply Hnot. right. by left.
  - destruct (PyStr.isdigit (PyStr.strip (name loc))) eqn:Hd; [| done].
    exfalso. apply Hnot. right. right. by left.
Qed.

(** C7.  A location is dropped by the post-filter exactly when its
    trimmed name is under 2 characters, or its lower-cased trimmed name is
    one of the stopwords, or its name is purely numeric (white space
    around it apart), or its name holds a digit and is shorter than 5
    characters.  A location that reaches the post-filter (its key is new)
    is appended to the list exactly when it is not dropped.  So no entry
    of the output has a name under 2 characters, a stopword or a number as
    its name; a location named "123" is dropped whatever its other fields,
    and "123" is never the name of an entry. *)
Theorem post_filter :
  (∀ loc, dropped loc = true ↔ spec_post_filter loc)
  ∧ (∀ locations seen loc,
       location_key loc ∉ seen →
       keep_location (locations, seen) loc
       = if dropped loc then (locations, seen)
         else (locations ++ [to_location_dict loc], seen ∪ {[ location_key loc ]}))
  ∧ (∀ loc, name loc = "123" → dropped loc = true)
  ∧ (∀ w article_text tr,
       Forall (λ d, 2 ≤ PyStr.len (d_name d)
                    ∧ (PyStr.lower (d_name d) ∉ non_location_words)
                    ∧ PyStr.isdigit (d_name d) = false
                    ∧ d_name d ≠ "123")
         (output w article_text tr)).
Proof.
  split; [exact dropped_spec |]. split; [| split].
  - intros locations seen loc Hnew. rewrite keep_location_eq.
    by rewrite (bool_decide_eq_false_2 _ Hnew).
  - intros loc Hname. apply dropped_spec. right. right. left. by rewrite Hname.
  - intros w article_text tr. apply Forall_forall. intros d Hd.
    apply output_first_seen in Hd as (loc & -> & Hkeep & _).
    destruct (kept_name loc Hkeep) as (Hlen & Hword & Hdigit). simpl.
    repeat split; [done | done | done |].
    intros H123. by rewrite H123 in Hdigit.
Qed.

Lemma post_filter_witness :
  keep_location ([], ∅) {| name := "123"; type := "landmark"; confidence := "high";
                           context := "Room 123"; latitude := Some (fst paris);
                           longitude := Some (snd paris);
                           full_address := Some "123"; event_summary := None |}
  = ([], ∅).
Proof.
  rewrite (proj1 (proj2 post_filter)); [| apply not_elem_of_empty].
  reflexivity.
Defined.

(** *** The cap *)

Lemma rejected_false article_text :
  rejected article_text = false →
  negb (PyStr.truthy article_text) || negb (PyStr.truthy (PyStr.strip article_text))
  = false
  ∧ (PyStr.len (PyStr.strip article_text) <? 10)%nat = false.
Proof. unfold rejected. by intros ?%orb_false_iff. Qed.

Lemma process_article_sync_accepted w article_text tr :
  rejected article_text = false →
  systems_error w (prepared_trace article_text tr) = None →
  process_article_sync w article_text tr
  = finish (crew_data w article_text tr)
      (state_of (NewsLocationMappingCrew.extract_and_process_locations w
                   (prepared_text article_text) (prepared_trace article_text tr))).
Proof.
  intros [H1 H2]%rejected_false Hsys.
  by rewrite process_article_sync_run, H1, H2, Hsys.
Qed.



(** *** The validation of the input *)





(** *** Exceptions *)

(** [process_article_sync] returns a list, whatever the services do. *)
Lemma process_article_sync_returns w article_text tr :
  ∃ locations tr', process_article_sync w article_text tr = (Return locations, tr').
Proof.
  rewrite process_article_sync_run.
  destruct (negb _ || negb _); [by eexists _, _ |].
  destruct (_ <? 10)%nat; [by eexists _, _ |].
  destruct (systems_error w _); [by eexists _, _ |].
  rewrite finish_run. by eexists _, _.
Qed.

(** C2 at the failing input.  The orchestrator does return a list and
    never lets an exception through; but when the model's answer holds a
    good candidate ("Paris") followed by one without the key 'context'
    ("London"), the [KeyError] raised for London in the loop of the crew
    is caught around the whole loop: the crew prints the error and returns
    the empty list, and the location built for Paris is lost.  With Paris
    alone the same article gives one entry. *)
Theorem one_bad_candidate :
  (∀ w article_text tr,
     ∃ locations tr', process_article_sync w article_text tr = (Return locations, tr'))
  ∧ d_name <$> output (example_world paris_alone paris_london_known) paris_article []
    = ["Paris"]
  ∧ output (example_world paris_and_broken_london paris_london_known) paris_article []
    = []
  ∧ last (state_of (process_article_sync
                      (example_world paris_and_broken_london paris_london_known)
                      paris_article []))
    = Some (Printed "Error processing locations: 'context'").
Proof. split; [exact process_article_sync_returns | by vm_compute]. Qed.

(** *** The order of the output *)

Lemma Sorted_take {A} (R : relation A) n l : Sorted R l → Sorted R (take n l).
Proof.
  revert n; induction l as [|x l IH]; intros [|n] Hs; simpl; try constructor.
  - apply IH. by apply Sorted_inv in Hs as [? _].
  - apply Sorted_inv in Hs as [_ Hhd].
    destruct l as [|y l], n as [|n]; simpl; constructor.
    by apply HdRel_inv in Hhd.
Qed.

(** The list returned is in descending order of the keys the code
    computes. *)
Lemma output_sorted w article_text tr : Sorted descending (output w article_text tr).
Proof.
  destruct (output_run w article_text tr) as (data & -> & _).
  apply Sorted_take, sort_reverse_sorted.
Qed.

(** C6 at the failing input.  [has_coords] tests the truth of the
    coordinates, and a coordinate 0.0 is false: Greenwich, matched at
    longitude 0, gets the key (0, 3, "Greenwich") and is sorted after
    Paris, of low confidence, with the key (1, 1, "Paris").  Both entries
    have coordinates, so with the key of the specification the earlier
    entry (1, 1, "Paris") is below the later one (1, 3, "Greenwich"). *)
Theorem zero_coordinate_sorts_last :
  let out := output (example_world greenwich_and_paris greenwich_known)
               paris_article [] in
  d_name <$> out = ["Paris"; "Greenwich"]
  ∧ d_longitude <$> out = [Some (235 # 100); Some (0 # 1)]
  ∧ sort_key <$> out = [(1, 1, "Paris"); (0, 3, "Greenwich")]
  ∧ spec_sort_key <$> out = [(1, 1, "Paris"); (1, 3, "Greenwich")]
  ∧ key_ge (1, 1, "Paris") (1, 3, "Greenwich") = false.
Proof. by vm_compute. Qed.

(** ** The geocoder of the session client *)

Lemma try_strategies_result w location strategies : ∀ tr,
  ∃ r tr', MCPNewsLocationClient.try_strategies w location strategies tr = (Return r, tr')
           ∧ (∀ g, r = Some g → from_match w g ∧ g_location g = location)
           ∧ ((∀ h agent query, is_hit (nominatim w h agent query) = false) → r = None).
Proof.
  induction strategies as [|strategy rest IH]; intros tr.
  - exists None, tr. by repeat split.
  - cbn [MCPNewsLocationClient.try_strategies].
    rewrite run_bind, fallback_lookup. cbv zeta.
    destruct (nominatim w (tr ++ [Slept 1]) _ strategy) as [p| |msg] eqn:Hr.
    + eexists _, _. rewrite run_ret. split; [reflexivity |]. split.
      * intros g [= <-]. split; [| done].
        by exists (tr ++ [Slept 1]), MCPNewsLocationClient.fallback_agent, strategy, p.
      * intros Hmiss. specialize (Hmiss (tr ++ [Slept 1])
                                    MCPNewsLocationClient.fallback_agent strategy).
        by rewrite Hr in Hmiss.
    + apply IH.
    + apply IH.
Qed.

Lemma geocode_with_fallbacks_result w location tr :
  named location →
  ∃ r tr', MCPNewsLocationClient._geocode_with_fallbacks w location tr = (Return r, tr')
           ∧ (∀ g, r = Some g → from_match w g ∧ g_location g = location)
           ∧ ((∀ h agent query, is_hit (nominatim w h agent query) = false) → r = None).
Proof.
  intros [raw Hraw]. unfold MCPNewsLocationClient._geocode_with_fallbacks.
  rewrite Hraw. cbn [getitem]. rewrite run_bind, run_ret.
  apply try_strategies_result.
Qed.

Lemma geocode_with_context_result w location tr :
  ∃ r tr', MCPNewsLocationClient._geocode_with_context w location tr = (Return r, tr')
           ∧ (∀ g, r = Some g → from_match w g ∧ g_location g = location)
           ∧ ((∀ h agent query, is_hit (nominatim w h agent query) = false) → r = None).
Proof.
  unfold MCPNewsLocationClient._geocode_with_context.
  rewrite run_try_except, run_bind.
  unfold MCPNewsLocationClient.primary_query.
  destruct (c_location location) as [raw|]; cbn [getitem].
  2:{ rewrite run_bind, run_raise. unfold MCPNewsLocationClient.log.
      rewrite run_bind, run_emit, run_ret. eexists _, _. by repeat split. }
  rewrite run_bind, !run_ret, run_bind. unfold sleep. rewrite run_emit, run_bind.
  unfold geocode.
  match goal with |- context [nominatim w ?h ?a ?q] =>
    destruct (nominatim w h a q) as [p| |msg] eqn:Hr end.
  - rewrite run_ret. eexists _, _. split; [reflexivity |]. split.
    + intros g [= <-]. split; [| done].
      eexists _, _, _, p. split; [exact Hr | done].
    + intros Hmiss. match type of Hr with nominatim w ?h ?a ?q = _ =>
        specialize (Hmiss h a q) end. by rewrite Hr in Hmiss.
  - rewrite run_ret. eexists _, _. by repeat split.
  - unfold MCPNewsLocationClient.log. rewrite run_bind, run_emit, run_ret.
    eexists _, _. by repeat split.
Qed.

(** One turn of the loop of [intelligent_geocoding] on a location that has
    a name: it does not raise; it appends the location with the
    coordinates of a match, or leaves the list as it is. *)
Lemma geocode_location_result w acc location tr :
  named location →
  ∃ tr', (MCPNewsLocationClient.geocode_location w acc location tr = (Return acc, tr')
          ∨ ∃ g, MCPNewsLocationClient.geocode_location w acc location tr
                 = (Return (acc ++ [g]), tr')
                 ∧ from_match w g ∧ g_location g = location)
         ∧ ((∀ h agent query, is_hit (nominatim w h agent query) = false) →
            MCPNewsLocationClient.geocode_location w acc location tr = (Return acc, tr')).
Proof.
  intros Hnamed. unfold MCPNewsLocationClient.geocode_location.
  rewrite run_try_except, run_bind.
  destruct (geocode_with_context_result w location tr) as (r & tr1 & -> & Hr & Hr').
  destruct r as [g|].
  { rewrite run_ret. exists tr1. split.
    - right. exists g. split; [done |]. by apply Hr.
    - intros Hmiss. by specialize (Hr' Hmiss). }
  rewrite run_bind.
  destruct (geocode_with_fallbacks_result w location tr1 Hnamed)
    as (r & tr2 & -> & Hf & Hf').
  destruct r as [g|].
  { rewrite run_ret. exists tr2. split.
    - right. exists g. split; [done |]. by apply Hf.
    - intros Hmiss. by specialize (Hf' Hmiss). }
  destruct Hnamed as [raw Hraw]. rewrite Hraw. cbn [getitem].
  unfold MCPNewsLocationClient.log.
  rewrite run_bind, run_ret, run_bind, run_emit, run_ret.
  eexists. split; [by left | done].
Qed.

Lemma geocode_loop_result w locations : ∀ acc tr,
  Forall named locations →
  ∃ found tr',
    for_each (MCPNewsLocationClient.geocode_location w) locations acc tr
    = (Return (acc ++ found), tr')
    ∧ Forall (from_match w) found
    ∧ g_location <$> found `sublist_of` locations
    ∧ ((∀ h agent query, is_hit (nominatim w h agent query) = false) → found = []).
Proof.
  induction locations as [|location rest IH]; intros acc tr Hnamed.
  - exists [], tr. rewrite (right_id_L [] (++)). by repeat split.
  - apply Forall_cons in Hnamed as [Hloc Hrest].
    cbn [for_each]. rewrite run_bind.
    destruct (geocode_location_result w acc location tr Hloc) as (tr1 & Hcase & Hmiss).
    destruct Hcase as [Heq | (g & Heq & Hg & Hgl)]; rewrite Heq.
    + destruct (IH acc tr1 Hrest) as (found & tr2 & -> & Hall & Hsub & Hnone).
      exists found, tr2. split; [done |]. split; [done |].
      split; [by apply sublist_cons | done].
    + destruct (IH (acc ++ [g]) tr1 Hrest) as (found & tr2 & -> & Hall & Hsub & Hnone).
      exists (g :: found), tr2. rewrite <- (assoc_L (++)).
      split; [done |]. split; [by constructor |]. split.
      * rewrite fmap_cons, Hgl. by apply sublist_skip.
      * intros Hno. specialize (Hmiss Hno). rewrite Heq in Hmiss.
        injection Hmiss as Hacc. apply (f_equal length) in Hacc.
        rewrite length_app in Hacc. simpl in Hacc. lia.
Qed.

Lemma or_current_run session_id s :
  MCPNewsLocationClient.or_current session_id s
  = (Return (active_session (self s) session_id), s).
Proof. reflexivity. Qed.

Lemma active_session_idem me session_id :
  active_session me (active_session me session_id) = active_session me session_id.
Proof.
  unfold active_session.
  destruct session_id as [i|]; [destruct (PyStr.truthy i) eqn:Hi; [by rewrite Hi |] |];
    by destruct (current_session_id me) as [j|]; [destruct (PyStr.truthy j) |].
Qed.

Lemma get_session_context_run session_id s :
  MCPNewsLocationClient.get_session_context session_id s
  = (Return (MCPNewsLocationClient.contexts_get (self s)
               (active_session (self s) session_id)), s).
Proof. reflexivity. Qed.

Lemma update_session_status_returns status session_id s :
  ∃ s', MCPNewsLocationClient.update_session_status status session_id s = (Return (), s').
Proof.
  unfold MCPNewsLocationClient.update_session_status.
  rewrite run_bind, or_current_run, run_bind. unfold get_self.
  destruct (active_session (self s) session_id) as [i|]; [| by eexists].
  destruct (MCPNewsLocationClient.contexts_get (self s) (Some i)); by eexists.
Qed.

Lemma lift_run {A} (m : Run A) s :
  lift m s = ((m (history s)).1, {| self := self s; history := (m (history s)).2 |}).
Proof. reflexivity. Qed.

(** [intelligent_geocoding] on a session that exists and on locations that
    have a name: it returns; every dictionary returned carries the
    coordinates of a match of the service and belongs to one of the
    locations, in their order; and when the service matches nothing, the
    list returned is empty. *)
Lemma intelligent_geocoding_result w locations session_id s context :
  MCPNewsLocationClient.contexts_get (self s) (active_session (self s) session_id)
  = Some context →
  Forall named locations →
  ∃ found s',
    MCPNewsLocationClient.intelligent_geocoding w locations session_id s
    = (Return found, s')
    ∧ Forall (from_match w) found
    ∧ g_location <$> found `sublist_of` locations
    ∧ ((∀ h agent query, is_hit (nominatim w h agent query) = false) → found = []).
Proof.
  intros Hctx Hnamed. unfold MCPNewsLocationClient.intelligent_geocoding.
  rewrite run_bind, or_current_run, run_bind, get_session_context_run,
    active_session_idem, Hctx, run_try_except, run_bind.
  destruct (update_session_status_returns "geocoding_locations"
              (active_session (self s) session_id) s) as [s1 ->].
  rewrite run_bind, lift_run.
  destruct (geocode_loop_result w locations [] (history s1) Hnamed)
    as (found & tr' & -> & Hall & Hsub & Hnone).
  simpl. rewrite run_bind. unfold modify_contexts at 1. rewrite run_bind.
  match goal with |- context [MCPNewsLocationClient.update_session_status ?a ?b ?c] =>
    destruct (update_session_status_returns a b c) as [s2 ->] end.
  rewrite run_ret. by exists found, s2.
Qed.

(** ** Coordinates of the output *)

Lemma unmatched_location_skipped w article_text acc loc raw tr :
  c_location loc = Some raw →
  is_hit (nominatim w (tr ++ [Slept 1]) GeocodingTool.user_agent raw) = false →
  result_of (NewsLocationMappingCrew.process_location w article_text acc loc tr)
  = Return acc.
Proof.
  intros Hraw Hmiss. unfold NewsLocationMappingCrew.process_location.
  rewrite Hraw. cbn [getitem]. rewrite run_bind, run_ret, run_bind, geocoding_run.
  cbv zeta. by destruct (nominatim w (tr ++ [Slept 1]) _ raw).
Qed.

(** C5.  Every entry of the list [process_article_sync] returns has a
    latitude and a longitude.  In the loop of the crew a candidate whose
    lookup finds no match (or raises) is not appended.  In the session
    client the fallback geocoder returns [None], and does not raise, when
    no strategy finds a match, and [intelligent_geocoding] returns only
    dictionaries that carry the coordinates of a match: a location that
    resolves to nothing is left out, and when nothing resolves the list is
    empty. *)
Theorem output_has_coordinates :
  (∀ w article_text tr,
     Forall (λ d, is_Some (d_latitude d) ∧ is_Some (d_longitude d))
       (output w article_text tr))
  ∧ (∀ w article_text acc loc raw tr,
       c_location loc = Some raw →
       is_hit (nominatim w (tr ++ [Slept 1]) GeocodingTool.user_agent raw) = false →
       result_of (NewsLocationMappingCrew.process_location w article_text acc loc tr)
       = Return acc)
  ∧ (∀ w location tr,
       named location →
       (∀ h agent query, is_hit (nominatim w h agent query) = false) →
       result_of (MCPNewsLocationClient._geocode_with_fallbacks w location tr)
       = Return None)
  ∧ (∀ w locations session_id s context,
       MCPNewsLocationClient.contexts_get (self s) (active_session (self s) session_id)
       = Some context →
       Forall named locations →
       ∃ found s',
         MCPNewsLocationClient.intelligent_geocoding w locations session_id s
         = (Return found, s')
         ∧ Forall (from_match w) found
         ∧ g_location <$> found `sublist_of` locations
         ∧ ((∀ h agent query, is_hit (nominatim w h agent query) = false) →
            found = [])).
Proof.
  split; [| split; [exact unmatched_location_skipped |
                    split; [| exact intelligent_geocoding_result]]].
  - intros w article_text tr. apply Forall_forall. intros d Hd.
    apply output_first_seen in Hd as (loc & -> & Hloc%first_seen_elem).
    destruct (crew_data_built w article_text tr) as [Hnil | (s & cs & _ & Hbuilt)].
    { rewrite Hnil in Hloc. by apply elem_of_nil in Hloc. }
    eapply Forall_forall in Hbuilt as [_ Hcoords]; [| exact Hloc]. done.
  - intros w location tr Hnamed Hmiss.
    destruct (geocode_with_fallbacks_result w location tr Hnamed)
      as (r & tr' & -> & _ & Hnone).
    by rewrite (Hnone Hmiss).
Qed.

Lemma output_has_coordinates_witness :
  result_of (MCPNewsLocationClient._geocode_with_fallbacks (example_world [] [])
               atlantis [])
  = Return None
  ∧ ∃ found s',
      MCPNewsLocationClient.intelligent_geocoding (example_world [] []) [atlantis]
        None one_session
      = (Return found, s')
      ∧ Forall (from_match (example_world [] [])) found
      ∧ g_location <$> found `sublist_of` [atlantis]
      ∧ ((∀ h agent query,
            is_hit (nominatim (example_world [] []) h agent query) = false) →
         found = []).
Proof.
  split.
  - apply (proj1 (proj2 (proj2 output_has_coordinates))); [by eexists | done].
  - apply (proj2 (proj2 (proj2 output_has_coordinates)) _ _ _ _ empty_context).
    + reflexivity.
    + by repeat constructor; eexists.
Defined.

(** The fallbacks at work: the first two strategies miss, the third one
    hits, and the fourth ("Springfield, Illinois") is never looked up. *)
Example springfield_fallbacks :
  MCPNewsLocationClient._geocode_with_fallbacks
    (example_world [] [("Springfield, city", paris)]) springfield []
  = (Return (Some (MCPNewsLocationClient.geocoded_as springfield
                     {| place_latitude := fst paris; place_longitude := snd paris;
                        place_address := "Springfield, city" |}
                     "fallback" "medium")),
     attempts ["Springfield"; "Springfield"; "Springfield, city"]
       [ NoMatch; NoMatch;
         Found {| place_latitude := fst paris; place_longitude := snd paris;
                  place_address := "Springfield, city" |} ]).
Proof. reflexivity. Qed.

(* ===================================================================== *)
(** * Further properties *)
(* ===================================================================== *)

(** ** What a run does to the outside *)

Lemma paced_after_weaken slept tr :
  paced_after false tr = true → paced_after slept tr = true.
Proof. destruct tr as [|[] tr]; simpl; try done. Qed.

Lemma paced_after_app slept tr1 tr2 :
  paced_after slept tr1 = true → paced tr2 = true →
  paced_after slept (tr1 ++ tr2) = true.
Proof.
  revert slept; induction tr1 as [|e tr1 IH]; intros slept H1 H2; simpl.
  - by apply paced_after_weaken.
  - destruct e; simpl in *; try (by apply IH).
    apply andb_true_iff in H1 as [-> H1]. by apply IH.
Qed.

Lemma paced_app tr1 tr2 : paced tr1 = true → paced tr2 = true → paced (tr1 ++ tr2) = true.
Proof. apply paced_after_app. Qed.

Lemma lookups_app tr1 tr2 : lookups (tr1 ++ tr2) = lookups tr1 + lookups tr2.
Proof.
  induction tr1 as [|e tr1 IH]; simpl; [done |].
  destruct e; simpl; by rewrite ?IH.
Qed.

(** In a paced list of events every lookup is right after a sleep of at
    least one second. *)
Lemma paced_after_lookup slept tr i agent query r :
  paced_after slept tr = true →
  tr !! i = Some (Geocoded agent query r) →
  (i = 0 ∧ slept = true)
  ∨ ∃ j seconds, i = S j ∧ tr !! j = Some (Slept seconds) ∧ 1 ≤ seconds.
Proof.
  revert slept i; induction tr as [|e tr IH]; intros slept i Hp Hi; [done |].
  destruct i as [|i]; simpl in Hi.
  - left. injection Hi as ->. simpl in Hp. by apply andb_true_iff in Hp as [-> _].
  - right. exists i.
    assert (∃ slept', paced_after slept' tr = true
                      ∧ (slept' = true → ∃ seconds, e = Slept seconds ∧ 1 ≤ seconds))
      as (slept' & Hp' & He).
    { destruct e; simpl in Hp;
        try (exists false; split; [done | by intros ?]).
      - exists (1 <=? seconds)%nat. split; [done |].
        intros H%Nat.leb_le. by exists seconds.
      - apply andb_true_iff in Hp as [_ Hp]. exists false. by split. }
    destruct (IH slept' i Hp' Hi) as [[-> Hs] | (j & seconds & -> & Hj & Hsec)].
    + destruct (He Hs) as (seconds & -> & Hsec). by exists seconds.
    + exists seconds. by repeat split.
Qed.

Lemma crew_events_app article_text tr1 tr2 :
  crew_events article_text tr1 → crew_events article_text tr2 →
  crew_events article_text (tr1 ++ tr2).
Proof.
  induction 1; intros H2; simpl; [done | |]; constructor; by apply IHcrew_events.
Qed.

Lemma crew_events_paced article_text tr : crew_events article_text tr → paced tr = true.
Proof. induction 1; [done | done | done]. Qed.

Lemma crew_events_bounded article_text tr :
  crew_events article_text tr → Forall prompt_bounded tr.
Proof.
  induction 1; [constructor | by repeat constructor |].
  constructor; [| done]. unfold prompt_bounded. rewrite len_take. apply Nat.le_min_l.
Qed.

Lemma crew_events_lookups article_text tr :
  crew_events article_text tr → Forall (λ e, is_extraction e = false) tr.
Proof. induction 1; by repeat constructor. Qed.

Lemma process_location_events w text acc loc tr :
  ∃ new,
    state_of (NewsLocationMappingCrew.process_location w text acc loc tr) = tr ++ new
    ∧ crew_events text new ∧ lookups new ≤ 1.
Proof.
  unfold NewsLocationMappingCrew.process_location.
  destruct (c_location loc) as [n|] eqn:Hn; cbn [getitem].
  2:{ exists []. rewrite (right_id_L [] (++)). repeat split; [constructor | simpl; lia]. }
  rewrite run_bind, run_ret, run_bind, geocoding_run. cbv zeta.
  destruct (nominatim w (tr ++ [Slept 1]) _ n) as [p| |m] eqn:Hr.
  2,3: (eexists; split; [reflexivity | split; [by repeat constructor | simpl; lia]]).
  rewrite run_bind, run_ret.
  destruct (c_context loc) as [x|] eqn:Hx; cbn [getitem].
  2:{ eexists; split; [reflexivity | split; [by repeat constructor | simpl; lia]]. }
  rewrite run_bind, run_ret, run_bind, summarizer_run. cbv zeta.
  rewrite run_bind, run_ret.
  assert (crew_events text
            [Slept 1; Geocoded GeocodingTool.user_agent n (Found p);
             Summary n x (PyStr.take 2000 text)
               (summary_model w
                  (tr ++ [Slept 1; Geocoded GeocodingTool.user_agent n (Found p)])
                  n x (PyStr.take 2000 text))]) as Hev by (by repeat constructor).
  destruct (c_type loc) as [t|] eqn:Ht; cbn [getitem].
  2:{ eexists; split; [by rewrite <- (assoc_L (++)) | split; [exact Hev | simpl; lia]]. }
  rewrite run_bind, run_ret.
  destruct (c_confidence loc) as [c|] eqn:Hc; cbn [getitem].
  2:{ eexists; split; [by rewrite <- (assoc_L (++)) | split; [exact Hev | simpl; lia]]. }
  rewrite run_bind, run_ret, run_bind, run_ret, run_ret.
  eexists; split; [by rewrite <- (assoc_L (++)) | split; [exact Hev | simpl; lia]].
Qed.

Lemma crew_loop_events w text candidates : ∀ acc tr,
  ∃ new,
    state_of (for_each (NewsLocationMappingCrew.process_location w text)
                candidates acc tr) = tr ++ new
    ∧ crew_events text new ∧ lookups new ≤ length candidates.
Proof.
  induction candidates as [|loc rest IH]; intros acc tr.
  - exists []. rewrite (right_id_L [] (++)). repeat split; [constructor | simpl; lia].
  - cbn [for_each]. rewrite run_bind.
    destruct (process_location_events w text acc loc tr) as (new & Hst & Hev & Hn).
    destruct (NewsLocationMappingCrew.process_location w text acc loc tr)
      as [[acc'|e] tr'] eqn:Hrun; unfold state_of in Hst |- *; simpl in Hst |- *;
      subst tr'.
    2:{ exists new. repeat split; [done | simpl; lia]. }
    destruct (IH acc' (tr ++ new)) as (new' & Hst' & Hev' & Hn').
    unfold state_of in Hst'. exists (new ++ new').
    rewrite Hst', (assoc_L (++)), lookups_app. repeat split.
    + by apply crew_events_app.
    + simpl; lia.
Qed.

(** The events of a run of the crew: the call of the extraction model,
    the events of the loop, and the printed error when the run failed. *)
Lemma extract_and_process_locations_events w text tr :
  ∃ data loop tail,
    NewsLocationMappingCrew.extract_and_process_locations w text tr
    = (Return data,
       tr ++ [Extraction text (extraction_model w tr text)] ++ loop ++ tail)
    ∧ crew_events text loop
    ∧ (tail = [] ∨ ∃ msg, tail = [Printed msg])
    ∧ (∀ l, json_loads w (match extraction_model w tr text with
                          | Says t => clean_response (PyStr.strip t)
                          | ModelFails m => "Error extracting locations: " +:+ m
                          end) = Parsed l → lookups loop ≤ length l)
    ∧ (∀ m, json_loads w (match extraction_model w tr text with
                          | Says t => clean_response (PyStr.strip t)
                          | ModelFails m => "Error extracting locations: " +:+ m
                          end) = Invalid m → loop = [] ∧ data = []).
Proof.
  unfold NewsLocationMappingCrew.extract_and_process_locations.
  rewrite run_try_except, run_bind, extraction_run, run_bind.
  set (json := match extraction_model w tr text with
               | Says t => clean_response (PyStr.strip t)
               | ModelFails m => "Error extracting locations: " +:+ m
               end).
  unfold loads. destruct (json_loads w json) as [candidates|msg] eqn:Hparse.
  - rewrite run_ret.
    destruct (crew_loop_events w text candidates []
                (tr ++ [Extraction text (extraction_model w tr text)]))
      as (new & Hst & Hev & Hn).
    destruct (for_each _ candidates [] _) as [[data|e] tr2] eqn:Hrun;
      unfold state_of in Hst; simpl in Hst; subst tr2.
    + exists data, new, []. rewrite (right_id_L [] (++)), <- (assoc_L (++)).
      split; [done |]. split; [done |]. split; [by left |].
      split; [by intros l [= <-] | done].
    + rewrite run_bind, run_emit, run_ret.
      eexists [], new, [_]. rewrite <- !(assoc_L (++)). split; [reflexivity |].
      split; [done |]. split; [right; by eexists |].
      split; [by intros l [= <-] | done].
  - rewrite run_raise, run_bind, run_emit, run_ret.
    eexists [], [], [_]. rewrite <- !(assoc_L (++)). split; [reflexivity |].
    split; [constructor |]. split; [right; by eexists |]. split; [done | done].
Qed.

Lemma len_prepared_text article_text : PyStr.len (prepared_text article_text) ≤ 10000.
Proof.
  unfold prepared_text.
  destruct (10000 <? PyStr.len article_text)%nat eqn:Hlen.
  - rewrite len_take. apply Nat.le_min_l.
  - by apply Nat.ltb_ge in Hlen.
Qed.

Lemma paced_notices tr :
  Forall (λ e, match e with Streamlit _ | Printed _ => True | _ => False end) tr →
  paced tr = true ∧ Forall prompt_bounded tr.
Proof.
  induction 1 as [|e tr He _ [IH1 IH2]]; [by split |].
  destruct e; try done; split; try done; by constructor.
Qed.

(** The events of a run of [process_article_sync]: lookups are paced and
    the prompts bounded. *)
Lemma process_article_sync_events w article_text tr :
  ∃ new,
    state_of (process_article_sync w article_text tr) = tr ++ new
    ∧ paced new = true
    ∧ Forall prompt_bounded new.
Proof.
  rewrite process_article_sync_run.
  destruct (negb _ || negb _).
  { exists []. by rewrite (right_id_L [] (++)). }
  destruct (_ <? 10)%nat.
  { eexists. split; [reflexivity |]. apply paced_notices. by repeat constructor. }
  assert (∃ pre, prepared_trace article_text tr = tr ++ pre
                 ∧ Forall (λ e, match e with
                                | Streamlit _ | Printed _ => True | _ => False
                                end) pre) as (pre & Hpre & Hnotice).
  { unfold prepared_trace. destruct (10000 <? _)%nat.
    - eexists. split; [reflexivity | by repeat constructor].
    - exists []. by rewrite (right_id_L [] (++)). }
  destruct (paced_notices pre Hnotice) as [Hp1 Hb1].
  destruct (systems_error w _).
  { eexists. unfold state_of. simpl. rewrite Hpre, <- (assoc_L (++)).
    split; [reflexivity |]. split.
    - apply paced_app; [done |]. apply paced_notices. by repeat constructor.
    - apply Forall_app. split; [done |]. apply paced_notices. by repeat constructor. }
  rewrite finish_run. cbv zeta.
  destruct (extract_and_process_locations_events w (prepared_text article_text)
              (prepared_trace article_text tr))
    as (data & loop & tail & -> & Hloop & Htail & _).
  unfold state_of. simpl.
  assert (paced tail = true ∧ Forall prompt_bounded tail) as [Hp3 Hb3].
  { destruct Htail as [-> | [msg ->]]; [done |].
    apply paced_notices. by repeat constructor. }
  assert (paced (pre ++ [Extraction (prepared_text article_text)
                           (extraction_model w (prepared_trace article_text tr)
                              (prepared_text article_text))] ++ loop ++ tail) = true
          ∧ Forall prompt_bounded
              (pre ++ [Extraction (prepared_text article_text)
                         (extraction_model w (prepared_trace article_text tr)
                            (prepared_text article_text))] ++ loop ++ tail))
    as [Hp Hb].
  { split.
    - apply paced_app; [done |]. apply (paced_app [_]); [done |].
      apply paced_app; [by eapply crew_events_paced | done].
    - apply Forall_app. split; [done |]. apply Forall_cons. split.
      + apply len_prepared_text.
      + apply Forall_app. split; [by eapply crew_events_bounded | done]. }
  rewrite Hpre in Hp, Hb |- *.
  set (e := Extraction _ _) in *.
  destruct (50 <? _)%nat.
  - set (n := Streamlit _).
    exists ((pre ++ [e] ++ loop ++ tail) ++ [n]). split.
    + rewrite <- ?(assoc_L (++)). simpl. by rewrite <- ?(assoc_L (++)).
    + split; [by apply paced_app |].
      apply Forall_app. split; [done | by repeat constructor].
  - exists (pre ++ [e] ++ loop ++ tail). split; [| done].
    rewrite <- ?(assoc_L (++)). simpl. by rewrite <- ?(assoc_L (++)).
Qed.

(** X2.  Whatever the services do, in the events a run of
    [process_article_sync] adds to the history every lookup of the
    geocoding service comes right after a sleep of at least one second. *)
Theorem geocoder_rate_limit w article_text tr :
  ∃ new,
    state_of (process_article_sync w article_text tr) = tr ++ new
    ∧ ∀ i agent query r,
        new !! i = Some (Geocoded agent query r) →
        ∃ j seconds, i = S j ∧ new !! j = Some (Slept seconds) ∧ 1 ≤ seconds.
Proof.
  destruct (process_article_sync_events w article_text tr) as (new & Hst & Hp & _).
  exists new. split; [done |]. intros i agent query r Hi.
  destruct (paced_after_lookup false new i agent query r Hp Hi) as [[_ ?] | H]; done.
Qed.

(** X3.  Whatever the length of the article, a run of
    [process_article_sync] never hands more than 10,000 characters of it
    to the extraction model, nor more than 2000 characters of it to the
    model of the summariser. *)
Theorem prompts_are_bounded w article_text tr :
  ∃ new,
    state_of (process_article_sync w article_text tr) = tr ++ new
    ∧ Forall (λ e, match e with
                   | Extraction text _ => PyStr.len text ≤ 10000
                   | Summary _ _ article _ => PyStr.len article ≤ 2000
                   | _ => True
                   end) new.
Proof.
  destruct (process_article_sync_events w article_text tr) as (new & Hst & _ & Hb).
  exists new. split; [done |].
  eapply Forall_impl; [exact Hb |]. intros e He. by destruct e.
Qed.

(** ** The entries of the output *)

Lemma rstrip_idem s : PyStr.rstrip (PyStr.rstrip s) = PyStr.rstrip s.
Proof.
  induction s as [|c s IH]; [done |]. simpl.
  destruct (PyStr.rstrip s) as [|c' r] eqn:Hr.
  - destruct (PyStr.isspace_char c) eqn:Hc; [done |]. simpl. by rewrite Hc.
  - change (PyStr.rstrip (String c (String c' r)))
      with (match PyStr.rstrip (String c' r) with
            | "" => if PyStr.isspace_char c then "" else String c ""
            | r0 => String c r0
            end).
    by rewrite IH.
Qed.

Lemma lstrip_head s :
  PyStr.lstrip s = ""
  ∨ ∃ c s', PyStr.lstrip s = String c s' ∧ PyStr.isspace_char c = false.
Proof.
  induction s as [|c s IH]; [by left |]. simpl.
  destruct (PyStr.isspace_char c) eqn:Hc; [done |]. right. by exists c, s.
Qed.

Lemma lstrip_rstrip_head c s :
  PyStr.isspace_char c = false →
  PyStr.lstrip (PyStr.rstrip (String c s)) = PyStr.rstrip (String c s).
Proof.
  intros Hc. cbn [PyStr.rstrip].
  destruct (PyStr.rstrip s); rewrite ?Hc; cbn [PyStr.lstrip]; by rewrite Hc.
Qed.

(** Trimming a trimmed string changes nothing. *)
Lemma strip_idem s : PyStr.strip (PyStr.strip s) = PyStr.strip s.
Proof.
  unfold PyStr.strip.
  destruct (lstrip_head s) as [-> | (c & s' & -> & Hc)]; [done |].
  by rewrite lstrip_rstrip_head, rstrip_idem.
Qed.

Lemma or_else_nonempty x alt : alt ≠ "" → or_else x alt ≠ "".
Proof.
  intros Halt. unfold or_else. destruct (PyStr.truthy x) eqn:Hx; [| done].
  by apply truthy_true.
Qed.

(** X4.  Every entry [process_article_sync] returns has a name without
    white space around it, and a type and a confidence that are not empty
    (an empty type becomes "unknown", an empty confidence "medium"). *)
Theorem output_entries_well_formed w article_text tr :
  Forall (λ d, PyStr.strip (d_name d) = d_name d
               ∧ d_type d ≠ "" ∧ d_confidence d ≠ "")
    (output w article_text tr).
Proof.
  apply Forall_forall. intros d Hd.
  apply output_first_seen in Hd as (loc & -> & _). simpl.
  split; [apply strip_idem |]. split; by apply or_else_nonempty.
Qed.

(** *** Nothing that survives is lost *)

Lemma keep_location_fold_complete data : ∀ processed kept seen,
  (∀ k, k ∈ seen ↔ k ∈ location_key <$> kept) →
  Forall (first_seen processed) kept →
  (∀ c, c ∈ processed → dropped c = false → location_key c ∈ seen) →
  ∃ kept',
    (foldl keep_location (to_location_dict <$> kept, seen) data).1
    = to_location_dict <$> kept'
    ∧ Forall (first_seen (processed ++ data)) kept'
    ∧ (∀ c, c ∈ processed ++ data → dropped c = false →
            location_key c ∈ location_key <$> kept').
Proof.
  induction data as [|loc data IH]; intros processed kept seen Hseen Hfirst Hall.
  - exists kept. rewrite (right_id_L [] (++)). split; [done |]. split; [done |].
    intros c Hc Hkeep. by apply Hseen, Hall.
  - cbn [foldl]. rewrite keep_location_eq.
    replace (processed ++ loc :: data) with ((processed ++ [loc]) ++ data)
      by (by rewrite <- (assoc_L (++))).
    destruct (bool_decide (location_key loc ∈ seen) || dropped loc) eqn:Hskip.
    + apply IH; [done | |].
      * eapply Forall_impl; [exact Hfirst |]. intros c. apply first_seen_app.
      * intros c [Hc | Hc%list_elem_of_singleton]%elem_of_app Hkeep; [by apply Hall |].
        subst c. rewrite Hkeep, orb_false_r in Hskip.
        by apply bool_decide_eq_true in Hskip.
    + apply orb_false_iff in Hskip as [Hnew%bool_decide_eq_false Hkeep].
      replace ((to_location_dict <$> kept) ++ [to_location_dict loc])
        with (to_location_dict <$> (kept ++ [loc])) by (by rewrite fmap_app).
      apply IH.
      * intros k. rewrite fmap_app, elem_of_app, elem_of_union, Hseen.
        simpl. rewrite list_elem_of_singleton, elem_of_singleton. done.
      * apply Forall_app. split.
        -- eapply Forall_impl; [exact Hfirst |]. intros c. apply first_seen_app.
        -- constructor; [| constructor]. split; [done |].
           exists processed, []. split; [done |].
           apply Forall_forall. intros c Hc Hkey.
           destruct (dropped c) eqn:Hd; [done |].
           exfalso. apply Hnew. rewrite <- Hkey. by apply Hall.
      * intros c [Hc | Hc%list_elem_of_singleton]%elem_of_app Hk;
          apply elem_of_union; [left; by apply Hall | right].
        subst c. by apply elem_of_singleton.
Qed.

Lemma first_seen_unique data a b :
  first_seen data a → first_seen data b → location_key a = location_key b → a = b.
Proof.
  intros (Ha & b1 & r1 & H1 & F1) (Hb & b2 & r2 & H2 & F2) Hkey.
  assert (data !! length b1 = Some a) as La.
  { rewrite H1. by rewrite list_lookup_middle. }
  assert (data !! length b2 = Some b) as Lb.
  { rewrite H2. by rewrite list_lookup_middle. }
  destruct (Nat.lt_trichotomy (length b1) (length b2)) as [Hlt | [Heq | Hgt]].
  - exfalso. rewrite H2, lookup_app_l in La by done.
    apply list_elem_of_lookup_2 in La.
    eapply Forall_forall in F2; [| exact La]. rewrite (F2 Hkey) in Ha. done.
  - rewrite Heq in La. congruence.
  - exfalso. rewrite H1, lookup_app_l in Lb by done.
    apply list_elem_of_lookup_2 in Lb.
    eapply Forall_forall in F1; [| exact Lb]. rewrite (F1 (eq_sym Hkey)) in Hb. done.
Qed.

(** Every location that is the first of its key to pass the post-filter
    is collected by the loop. *)
Lemma collect_locations_complete data loc :
  first_seen data loc → to_location_dict loc ∈ collect_locations data.
Proof.
  intros Hfirst. unfold collect_locations.
  destruct (keep_location_fold_complete data [] [] ∅) as (kept & Heq & Hkept & Hall).
  { intros k. simpl. rewrite elem_of_nil. set_solver. }
  { constructor. }
  { intros c Hc. by apply elem_of_nil in Hc. }
  simpl in Heq, Hkept, Hall. rewrite Heq.
  assert (location_key loc ∈ location_key <$> kept) as Hin.
  { apply Hall; [by apply first_seen_elem | by destruct Hfirst]. }
  apply list_elem_of_fmap in Hin as (c & Hkey & Hc).
  eapply Forall_forall in Hkept; [| exact Hc].
  rewrite (first_seen_unique data loc c Hfirst Hkept Hkey).
  by apply list_elem_of_fmap_2.
Qed.

Lemma output_accepted w article_text tr :
  rejected article_text = false →
  systems_error w (prepared_trace article_text tr) = None →
  output w article_text tr
  = take 50 (sort_reverse (collect_locations (crew_data w article_text tr))).
Proof.
  intros Hok Hsys. unfold output.
  by rewrite (process_article_sync_accepted _ _ _ Hok Hsys), finish_run.
Qed.

(** X5.  When the text passes the validation and the crew is available,
    the list returned has as many entries as the loop collected, up to
    50; and when the loop collected 50 entries or fewer, every location of
    the crew that is the first of its key to pass the post-filter is in
    the list returned: the sort and the cap lose nothing. *)
Theorem survivors_are_returned w article_text tr :
  rejected article_text = false →
  systems_error w (prepared_trace article_text tr) = None →
  length (output w article_text tr)
  = 50 `min` length (collect_locations (crew_data w article_text tr))
  ∧ (length (collect_locations (crew_data w article_text tr)) ≤ 50 →
     ∀ loc, first_seen (crew_data w article_text tr) loc →
            to_location_dict loc ∈ output w article_text tr).
Proof.
  intros Hok Hsys. rewrite (output_accepted _ _ _ Hok Hsys).
  assert (length (sort_reverse (collect_locations (crew_data w article_text tr)))
          = length (collect_locations (crew_data w article_text tr))) as Hlen
    by (by rewrite sort_reverse_perm).
  split; [by rewrite length_take, Hlen |].
  intros Hfew loc Hloc. rewrite take_ge by lia.
  rewrite sort_reverse_perm. by apply collect_locations_complete.
Qed.

Lemma survivors_are_returned_witness :
  length (output (example_world two_paris paris_known) paris_article [])
  = 50 `min` length (collect_locations
                       (crew_data (example_world two_paris paris_known)
                          paris_article []))
  ∧ to_location_dict paris_first
    ∈ output (example_world two_paris paris_known) paris_article [].
Proof.
  destruct (survivors_are_returned (example_world two_paris paris_known)
              paris_article [] eq_refl eq_refl) as [Hlen Hall].
  split; [exact Hlen |]. apply Hall.
  - vm_compute. lia.
  - split; [by vm_compute |]. exists [], [paris_second]. split; [| constructor].
    by vm_compute.
Defined.

(** ** The sessions of the client *)

Lemma active_session_some me session_id i :
  active_session me session_id = Some i → active_session me (Some i) = Some i.
Proof. intros H. by rewrite <- H, active_session_idem. Qed.

Lemma active_session_current me me' session_id :
  current_session_id me = current_session_id me' →
  active_session me session_id = active_session me' session_id.
Proof. unfold active_session. by intros ->. Qed.

Lemma update_session_status_known status session_id s i c :
  active_session (self s) session_id = Some i →
  contexts (self s) !! i = Some c →
  MCPNewsLocationClient.update_session_status status session_id s
  = (Return (),
     {| self := {| contexts := alter (with_status status) i (contexts (self s));
                   current_session_id := current_session_id (self s) |};
        history := history s
                   ++ [Logged "info"
                         ("Session " +:+ i +:+ " status updated to: " +:+ status)] |}).
Proof.
  intros Hact Hc. unfold MCPNewsLocationClient.update_session_status.
  rewrite run_bind, or_current_run, Hact, run_bind. unfold get_self.
  unfold MCPNewsLocationClient.contexts_get. rewrite Hc. reflexivity.
Qed.

Lemma update_session_status_unknown status session_id s :
  MCPNewsLocationClient.contexts_get (self s) (active_session (self s) session_id)
  = None →
  MCPNewsLocationClient.update_session_status status session_id s = (Return (), s).
Proof.
  intros Hc. unfold MCPNewsLocationClient.update_session_status.
  rewrite run_bind, or_current_run, run_bind. unfold get_self.
  destruct (active_session (self s) session_id) as [i|]; [| done].
  by rewrite Hc.
Qed.

Lemma add_error_known error_message session_id s i c :
  active_session (self s) session_id = Some i →
  contexts (self s) !! i = Some c →
  MCPNewsLocationClient.add_error error_message session_id s
  = (Return (),
     {| self := {| contexts := alter (with_error error_message) i (contexts (self s));
                   current_session_id := current_session_id (self s) |};
        history := history s
                   ++ [Logged "error"
                         ("Session " +:+ i +:+ " error: " +:+ error_message)] |}).
Proof.
  intros Hact Hc. unfold MCPNewsLocationClient.add_error.
  rewrite run_bind, or_current_run, Hact, run_bind. unfold get_self.
  unfold MCPNewsLocationClient.contexts_get. rewrite Hc. reflexivity.
Qed.

(** [intelligent_geocoding] on a session that exists, in full: the loop
    runs after the first change of status, and its outcome decides what
    the session holds in the end. *)
Lemma intelligent_geocoding_run w locations session_id s i c :
  active_session (self s) session_id = Some i →
  contexts (self s) !! i = Some c →
  let loop :=
    for_each (MCPNewsLocationClient.geocode_location w) locations []
      (history s ++ [Logged "info" ("Session " +:+ i +:+ " status updated to: "
                                    +:+ "geocoding_locations")]) in
  ∃ s',
    MCPNewsLocationClient.intelligent_geocoding w locations session_id s
    = (result_of loop, s')
    ∧ current_session_id (self s') = current_session_id (self s)
    ∧ (∀ j, j ≠ i → contexts (self s') !! j = contexts (self s) !! j)
    ∧ (∃ log, history s' = state_of loop ++ log
              ∧ Forall (λ e, match e with Logged _ _ => True | _ => False end) log)
    ∧ contexts (self s') !! i
      = Some match result_of loop with
             | Return found =>
                 with_status "geocoding_complete"
                   (with_geocoded found (with_status "geocoding_locations" c))
             | Raise e =>
                 with_status "error"
                   (with_error ("Geocoding failed: " +:+ exn_str e)
                      (with_status "geocoding_locations" c))
             end.
Proof.
  intros Hact Hc loop.
  pose proof (active_session_some _ _ _ Hact) as Hact'.
  unfold MCPNewsLocationClient.intelligent_geocoding.
  rewrite run_bind, or_current_run, Hact, run_bind, get_session_context_run, Hact'.
  unfold MCPNewsLocationClient.contexts_get. rewrite Hc.
  rewrite run_try_except, run_bind.
  rewrite (update_session_status_known _ _ _ i c Hact' Hc).
  rewrite run_bind, lift_run. cbn [self history]. fold loop.
  destruct loop as [[found|e] tr'] eqn:Hloop; cbn [fst snd].
  - rewrite run_bind. unfold modify_contexts at 1. cbn [self history contexts
      current_session_id]. rewrite run_bind.
    erewrite update_session_status_known; [| exact Hact' |];
      cbn [self contexts current_session_id]; [| by rewrite !lookup_alter_eq, Hc].
    rewrite run_ret. eexists. split; [reflexivity |].
    cbn [self contexts current_session_id history]. split; [done |]. split.
    { intros j Hj. by rewrite !lookup_alter_ne. }
    split; [eexists; split; [reflexivity | by repeat constructor] |].
    by rewrite !lookup_alter_eq, Hc.
  - rewrite run_bind.
    erewrite add_error_known; [| exact Hact' |];
      cbn [self contexts current_session_id]; [| by rewrite lookup_alter_eq, Hc].
    rewrite run_bind.
    erewrite update_session_status_known; [| exact Hact' |];
      cbn [self contexts current_session_id]; [| by rewrite !lookup_alter_eq, Hc].
    rewrite run_raise. eexists. split; [reflexivity |].
    cbn [self contexts current_session_id history]. split; [done |]. split.
    { intros j Hj. by rewrite !lookup_alter_ne. }
    split; [eexists [_; _]; split; [by rewrite <- (assoc_L (++)) | by repeat constructor] |].
    by rewrite !lookup_alter_eq, Hc.
Qed.

Lemma for_each_app {S A B} (f : B → A → M S B) l1 l2 acc s :
  for_each f (l1 ++ l2) acc s
  = match for_each f l1 acc s with
    | (Return acc', s') => for_each f l2 acc' s'
    | (Raise e, s') => (Raise e, s')
    end.
Proof.
  revert acc s; induction l1 as [|x l1 IH]; intros acc s; [done |].
  simpl. rewrite !run_bind. destruct (f acc x s) as [[acc'|e] s']; [apply IH | done].
Qed.

Lemma intelligent_geocoding_named w locations session_id s i c :
  active_session (self s) session_id = Some i →
  contexts (self s) !! i = Some c →
  Forall named locations →
  ∃ found s',
    MCPNewsLocationClient.intelligent_geocoding w locations session_id s
    = (Return found, s')
    ∧ contexts (self s') !! i
      = Some (with_status "geocoding_complete" (with_geocoded found c))
    ∧ (∀ j, j ≠ i → contexts (self s') !! j = contexts (self s) !! j)
    ∧ current_session_id (self s') = current_session_id (self s)
    ∧ Forall (λ g, named (g_location g)) found
    ∧ result_of (get_session_summary session_id s')
      = Return (summary_of (Some i) "geocoding_complete"
                  (length (extracted_locations c)) (length found) (error_messages c)).
Proof.
  intros Hact Hc Hnamed.
  destruct (intelligent_geocoding_run w locations session_id s i c Hact Hc)
    as (s' & Hrun & Hcur & Hother & _ & Hi).
  destruct (geocode_loop_result w locations []
              (history s ++ [Logged "info" ("Session " +:+ i +:+ " status updated to: "
                                            +:+ "geocoding_locations")]) Hnamed)
    as (found & tr' & Hloop & _ & Hsub & _).
  rewrite Hloop in Hrun, Hi. unfold result_of in Hrun, Hi. simpl in Hrun, Hi.
  exists found, s'. split; [done |]. split; [done |]. split; [done |]. split; [done |].
  split.
  { apply Forall_forall. intros g Hg.
    apply (proj1 (Forall_forall named locations) Hnamed).
    eapply elem_of_submseteq; [| by apply sublist_submseteq].
    by apply list_elem_of_fmap_2. }
  unfold get_session_summary.
  rewrite run_bind, or_current_run, run_bind, get_session_context_run,
    active_session_idem.
  rewrite (active_session_current (self s') (self s) session_id Hcur), Hact.
  unfold MCPNewsLocationClient.contexts_get. by rewrite Hi.
Qed.

(** X6.  [intelligent_geocoding] on a session that exists and on locations
    that have a name returns the geocoded list and leaves it in the
    session, with the status "geocoding_complete"; the other fields of the
    session, the other sessions and the current session are as before, and
    [get_session_summary] then reports the number of geocoded locations. *)
Theorem intelligent_geocoding_stores w locations session_id s i c :
  active_session (self s) session_id = Some i →
  contexts (self s) !! i = Some c →
  Forall named locations →
  ∃ found s',
    MCPNewsLocationClient.intelligent_geocoding w locations session_id s
    = (Return found, s')
    ∧ contexts (self s') !! i
      = Some (with_status "geocoding_complete" (with_geocoded found c))
    ∧ (∀ j, j ≠ i → contexts (self s') !! j = contexts (self s) !! j)
    ∧ current_session_id (self s') = current_session_id (self s)
    ∧ result_of (get_session_summary session_id s')
      = Return (summary_of (Some i) "geocoding_complete"
                  (length (extracted_locations c)) (length found) (error_messages c)).
Proof.
  intros Hact Hc Hnamed.
  destruct (intelligent_geocoding_named w locations session_id s i c Hact Hc Hnamed)
    as (found & s' & Hrun & Hi & Hother & Hcur & _ & Hsummary).
  by exists found, s'.
Qed.

Lemma intelligent_geocoding_stores_witness :
  ∃ found s',
    MCPNewsLocationClient.intelligent_geocoding
      (example_world [] paris_known) [paris_candidate; atlantis] None two_sessions
    = (Return found, s')
    ∧ contexts (self s') !! "s"
      = Some (with_status "geocoding_complete" (with_geocoded found empty_context))
    ∧ (∀ j, j ≠ "s" → contexts (self s') !! j = contexts (self two_sessions) !! j)
    ∧ current_session_id (self s') = current_session_id (self two_sessions)
    ∧ result_of (get_session_summary None s')
      = Return (summary_of (Some "s") "geocoding_complete"
                  (length (extracted_locations empty_context)) (length found)
                  (error_messages empty_context)).
Proof.
  apply intelligent_geocoding_stores.
  - reflexivity.
  - reflexivity.
  - by repeat constructor; eexists.
Defined.

Lemma intelligent_geocoding_no_session w locations session_id s :
  MCPNewsLocationClient.contexts_get (self s) (active_session (self s) session_id)
  = None →
  MCPNewsLocationClient.intelligent_geocoding w locations session_id s
  = (Raise (ValueError ("No active session found: "
                        +:+ str_of_id (active_session (self s) session_id))), s).
Proof.
  intros Hnone. unfold MCPNewsLocationClient.intelligent_geocoding.
  by rewrite run_bind, or_current_run, run_bind, get_session_context_run,
    active_session_idem, Hnone.
Qed.

Lemma generate_contextual_summaries_no_session w locations session_id s :
  MCPNewsLocationClient.contexts_get (self s) (active_session (self s) session_id)
  = None →
  generate_contextual_summaries w locations session_id s
  = (Raise (ValueError ("No active session found: "
                        +:+ str_of_id (active_session (self s) session_id))), s).
Proof.
  intros Hnone. unfold generate_contextual_summaries.
  by rewrite run_bind, or_current_run, run_bind, get_session_context_run,
    active_session_idem, Hnone.
Qed.

(** X7.  Without a session to work on (no id given and no current
    session, or an id the client does not know), [intelligent_geocoding]
    and [generate_contextual_summaries] raise [ValueError] at once: the
    client and the history are as before, nothing was looked up and no
    model was called. *)
Theorem no_session_no_work w session_id s :
  MCPNewsLocationClient.contexts_get (self s) (active_session (self s) session_id)
  = None →
  (∀ locations,
     MCPNewsLocationClient.intelligent_geocoding w locations session_id s
     = (Raise (ValueError ("No active session found: "
                           +:+ str_of_id (active_session (self s) session_id))), s))
  ∧ (∀ locations,
       generate_contextual_summaries w locations session_id s
       = (Raise (ValueError ("No active session found: "
                             +:+ str_of_id (active_session (self s) session_id))), s)).
Proof.
  intros Hnone. split; intros locations.
  - by apply intelligent_geocoding_no_session.
  - by apply generate_contextual_summaries_no_session.
Qed.

Lemma no_session_no_work_witness :
  (∀ locations,
     MCPNewsLocationClient.intelligent_geocoding (example_world [] paris_known)
       locations (Some "unknown") two_sessions
     = (Raise (ValueError ("No active session found: "
                           +:+ str_of_id (active_session (self two_sessions)
                                            (Some "unknown")))), two_sessions))
  ∧ (∀ locations,
       generate_contextual_summaries (example_world [] paris_known)
         locations (Some "unknown") two_sessions
       = (Raise (ValueError ("No active session found: "
                             +:+ str_of_id (active_session (self two_sessions)
                                              (Some "unknown")))), two_sessions)).
Proof. apply no_session_no_work. reflexivity. Defined.

Lemma geocode_location_nameless w acc location tr :
  c_location location = None →
  ∃ tr', MCPNewsLocationClient.geocode_location w acc location tr
         = (Raise (KeyError "location"), tr')
         ∧ lookups tr' = lookups tr.
Proof.
  intros Hnone. unfold MCPNewsLocationClient.geocode_location,
    MCPNewsLocationClient._geocode_with_context, MCPNewsLocationClient.primary_query,
    MCPNewsLocationClient._geocode_with_fallbacks, MCPNewsLocationClient.log.
  rewrite Hnone. cbn [getitem].
  eexists. split; [reflexivity |]. by rewrite lookups_app, Nat.add_0_r.
Qed.

(** X8.  A location without the key 'location' aborts the whole of
    [intelligent_geocoding]: the handler of the loop reads the missing key
    itself, so the [KeyError] leaves the loop.  The call raises
    [KeyError], the status of the session becomes "error", the message
    "Geocoding failed: 'location'" is added to its errors, and what was
    geocoded for the locations before the bad one is not stored. *)
Theorem nameless_location_aborts w before bad after session_id s i c :
  active_session (self s) session_id = Some i →
  contexts (self s) !! i = Some c →
  Forall named before →
  c_location bad = None →
  ∃ s',
    MCPNewsLocationClient.intelligent_geocoding w (before ++ bad :: after) session_id s
    = (Raise (KeyError "location"), s')
    ∧ contexts (self s') !! i
      = Some (with_status "error" (with_error "Geocoding failed: 'location'" c)).
Proof.
  intros Hact Hc Hnamed Hbad.
  destruct (intelligent_geocoding_run w (before ++ bad :: after) session_id s i c Hact Hc)
    as (s' & Hrun & _ & _ & _ & Hi).
  rewrite for_each_app in Hrun, Hi.
  destruct (geocode_loop_result w before []
              (history s ++ [Logged "info" ("Session " +:+ i +:+ " status updated to: "
                                            +:+ "geocoding_locations")]) Hnamed)
    as (found & tr' & Hloop & _).
  rewrite Hloop in Hrun, Hi. cbn [for_each] in Hrun, Hi. rewrite run_bind in Hrun, Hi.
  destruct (geocode_location_nameless w ([] ++ found) bad tr' Hbad) as (tr'' & Hraise & _).
  rewrite Hraise in Hrun, Hi. unfold result_of in Hrun, Hi. simpl in Hrun, Hi.
  by exists s'.
Qed.

Lemma nameless_location_aborts_witness :
  ∃ s',
    MCPNewsLocationClient.intelligent_geocoding (example_world [] paris_known)
      ([paris_candidate] ++ nameless :: [atlantis]) None two_sessions
    = (Raise (KeyError "location"), s')
    ∧ contexts (self s') !! "s"
      = Some (with_status "error" (with_error "Geocoding failed: 'location'" empty_context)).
Proof.
  apply nameless_location_aborts.
  - reflexivity.
  - reflexivity.
  - by repeat constructor; eexists.
  - reflexivity.
Defined.

(** ** Creating a session *)

(** X9.  [create_session] returns the id it was given, or the fresh one;
    afterwards that session is the current one and holds a new context
    (status "initialized", no locations, no errors), whatever a session of
    the same id held before, and the other sessions are as they were:
    [get_session_context] finds the new context with and without the id,
    and [get_session_summary] reports zero locations. *)
Theorem create_session_round_trip uuid4 session_id s :
  ∃ s',
    create_session uuid4 session_id s = (Return (default uuid4 session_id), s')
    ∧ (∀ j, j ≠ default uuid4 session_id →
            contexts (self s') !! j = contexts (self s) !! j)
    ∧ result_of (MCPNewsLocationClient.get_session_context None s')
      = Return (Some (new_context (default uuid4 session_id)))
    ∧ result_of (MCPNewsLocationClient.get_session_context
                   (Some (default uuid4 session_id)) s')
      = Return (Some (new_context (default uuid4 session_id)))
    ∧ result_of (get_session_summary None s')
      = Return (summary_of (Some (default uuid4 session_id)) "initialized" 0 0 []).
Proof.
  set (i := default uuid4 session_id).
  assert (create_session uuid4 session_id s
          = (Return i,
             {| self := {| contexts := <[i := new_context i]> (contexts (self s));
                           current_session_id := Some i |};
                history := history s ++ [Logged "info" ("Created MCP session: " +:+ i)] |}))
    as Hrun by (by destruct session_id).
  eexists. split; [exact Hrun |]. cbn [self contexts current_session_id].
  split; [intros j Hj; by rewrite lookup_insert_ne |].
  assert (∀ sid, sid = None ∨ sid = Some i →
            active_session {| contexts := <[i := new_context i]> (contexts (self s));
                              current_session_id := Some i |} sid = Some i) as Hact.
  { intros sid [-> | ->]; [done |]. simpl. by destruct (PyStr.truthy i). }
  split; [| split].
  - rewrite get_session_context_run. cbn [self result_of fst].
    rewrite Hact by (by left). simpl. by rewrite lookup_insert_eq.
  - rewrite get_session_context_run. cbn [self result_of fst].
    rewrite Hact by (by right). simpl. by rewrite lookup_insert_eq.
  - unfold get_session_summary.
    rewrite run_bind, or_current_run, run_bind, get_session_context_run,
      active_session_idem. cbn [self].
    rewrite Hact by (by left). simpl. by rewrite lookup_insert_eq.
Qed.

(** ** The answer of the extraction model *)

Lemma parse_location_response_run w response tr :
  MCPNewsLocationClient._parse_location_response w response tr
  = match json_loads w (clean_response response) with
    | Parsed l => (Return (filter (λ loc, is_Some (c_location loc)) l), tr)
    | Invalid m => (Return [], tr ++ [Logged "error" ("JSON parsing error: " +:+ m)])
    end.
Proof.
  unfold MCPNewsLocationClient._parse_location_response.
  rewrite run_try_except. cbv zeta. rewrite run_bind. unfold loads.
  destruct (json_loads w (clean_response response)) as [l|m].
  - by rewrite !run_ret.
  - rewrite run_raise. unfold MCPNewsLocationClient.log.
    by rewrite run_bind, run_emit, run_ret.
Qed.

(** X10.  [_parse_location_response] never raises.  Of a parsed array it
    returns, in order, the objects that have the key 'location'; of a text
    that is not JSON it returns the empty list and logs the error.  Every
    object returned has a name, so [intelligent_geocoding] on the result,
    for a session that exists, returns and does not raise. *)
Theorem parsed_locations_are_named w response tr :
  ∃ locations tr',
    MCPNewsLocationClient._parse_location_response w response tr
    = (Return locations, tr')
    ∧ Forall named locations
    ∧ (∀ l, json_loads w (clean_response response) = Parsed l →
            locations = filter (λ loc, is_Some (c_location loc)) l ∧ tr' = tr)
    ∧ (∀ m, json_loads w (clean_response response) = Invalid m →
            locations = []
            ∧ tr' = tr ++ [Logged "error" ("JSON parsing error: " +:+ m)])
    ∧ (∀ session_id s c,
         MCPNewsLocationClient.contexts_get (self s)
           (active_session (self s) session_id) = Some c →
         ∃ found s',
           MCPNewsLocationClient.intelligent_geocoding w locations session_id s
           = (Return found, s')).
Proof.
  rewrite parse_location_response_run.
  destruct (json_loads w (clean_response response)) as [l|m].
  - assert (Forall named (filter (λ loc, is_Some (c_location loc)) l)) as Hnamed.
    { apply Forall_forall. intros loc Hloc. by apply list_elem_of_filter in Hloc as [? _]. }
    eexists _, _. split; [reflexivity |]. split; [done |].
    split; [by intros ? [= <-] |]. split; [done |].
    intros session_id s c Hc.
    destruct (intelligent_geocoding_result w _ session_id s c Hc Hnamed)
      as (found & s' & Hrun & _).
    by exists found, s'.
  - eexists _, _. split; [reflexivity |]. split; [constructor |].
    split; [done |]. split; [by intros ? [= <-] |].
    intros session_id s c Hc.
    destruct (intelligent_geocoding_result w [] session_id s c Hc (Forall_nil_2 _))
      as (found & s' & Hrun & _).
    by exists found, s'.
Qed.

(** ** The summaries of the session client *)

Lemma generate_enhanced_summary_run w location context tr raw :
  c_location location = Some raw →
  let q := {| sr_name := raw;
              sr_type := default "location" (c_type location);
              sr_context := default "N/A" (c_context location);
              sr_importance := default "secondary" (c_importance location);
              sr_excerpt := PyStr.take 1500 (article_content context) |} in
  MCPNewsLocationClient._generate_enhanced_summary w location context tr
  = match enhanced_summary_model w tr q with
    | Says t => (Return (PyStr.strip t), tr ++ [EnhancedSummary q (Says t)])
    | ModelFails m =>
        (Return (enhanced_fallback location),
         tr ++ [EnhancedSummary q (ModelFails m);
                Logged "error" ("Claude API call failed: " +:+ m);
                Logged "error" ("Summary generation error: " +:+ m)])
    end.
Proof.
  intros Hraw q.
  unfold MCPNewsLocationClient._generate_enhanced_summary, enhanced_fallback.
  rewrite Hraw. cbn [getitem default]. rewrite run_try_except, run_bind, run_ret.
  cbv zeta. fold q. rewrite run_bind.
  unfold MCPNewsLocationClient._call_claude_async. rewrite run_try_except.
  unfold ask_enhanced_summary. cbv zeta.
  destruct (enhanced_summary_model w tr q) as [t|m].
  - by rewrite run_ret.
  - unfold MCPNewsLocationClient.log.
    rewrite run_bind, run_emit, run_raise, run_bind, run_emit, run_bind, !run_ret.
    by rewrite <- !(assoc_L (++)).
Qed.

Lemma summarize_location_run w context acc location tr :
  named (g_location location) →
  ∃ summary new,
    summarize_location w context acc location tr
    = (Return (acc ++ [{| e_location := location; e_event_summary := summary |}]),
       tr ++ new)
    ∧ (summary = enhanced_fallback (g_location location)
       ∨ ∃ h q t, enhanced_summary_model w h q = Says t ∧ summary = PyStr.strip t)
    ∧ ((∀ h q, ∃ m, enhanced_summary_model w h q = ModelFails m) →
       summary = enhanced_fallback (g_location location))
    ∧ Forall prompt_bounded new
    ∧ lookups new = 0
    ∧ paced new = true.
Proof.
  intros [raw Hraw]. unfold summarize_location.
  rewrite run_try_except, run_bind.
  rewrite (generate_enhanced_summary_run w _ context tr raw Hraw). cbv zeta.
  match goal with |- context [enhanced_summary_model w tr ?q] =>
    set (request := q);
    destruct (enhanced_summary_model w tr request) as [t|m] eqn:Hr end.
  - rewrite run_ret. eexists _, [_]. split; [reflexivity |].
    split; [right; by exists tr, request, t |]. split.
    + intros Hfail. destruct (Hfail tr request) as [m Hm]. congruence.
    + split; [| done]. constructor; [| constructor].
      unfold prompt_bounded, request. cbn [sr_excerpt].
      rewrite len_take. apply Nat.le_min_l.
  - rewrite run_ret. eexists _, [_; _; _]. split; [reflexivity |].
    split; [by left |]. split; [done |]. split; [| done].
    constructor; [| by repeat constructor].
    unfold prompt_bounded, request. cbn [sr_excerpt].
    rewrite len_take. apply Nat.le_min_l.
Qed.

Lemma summarize_loop_run w context locations : ∀ acc tr,
  Forall (λ g, named (g_location g)) locations →
  ∃ result new,
    for_each (summarize_location w context) locations acc tr
    = (Return (acc ++ result), tr ++ new)
    ∧ e_location <$> result = locations
    ∧ Forall (λ e, e_event_summary e = enhanced_fallback (g_location (e_location e))
                   ∨ ∃ h q t, enhanced_summary_model w h q = Says t
                              ∧ e_event_summary e = PyStr.strip t) result
    ∧ ((∀ h q, ∃ m, enhanced_summary_model w h q = ModelFails m) →
       Forall (λ e, e_event_summary e = enhanced_fallback (g_location (e_location e)))
         result)
    ∧ Forall prompt_bounded new
    ∧ lookups new = 0
    ∧ paced new = true.
Proof.
  induction locations as [|location rest IH]; intros acc tr Hnamed.
  - exists [], []. rewrite !(right_id_L [] (++)). by repeat split.
  - apply Forall_cons in Hnamed as [Hloc Hrest].
    cbn [for_each]. rewrite run_bind.
    destruct (summarize_location_run w context acc location tr Hloc)
      as (summary & new1 & -> & Hsum & Hfail & Hb1 & Hl1 & Hp1).
    destruct (IH (acc ++ [{| e_location := location; e_event_summary := summary |}])
                (tr ++ new1) Hrest)
      as (result & new2 & -> & Hlocs & Hall & Hfails & Hb2 & Hl2 & Hp2).
    exists ({| e_location := location; e_event_summary := summary |} :: result),
      (new1 ++ new2).
    rewrite <- !(assoc_L (++)). split; [done |].
    split; [by rewrite fmap_cons, Hlocs |].
    split; [by constructor |].
    split; [intros Hmodel; constructor; [by apply Hfail | by apply Hfails] |].
    split; [by apply Forall_app |].
    split; [by rewrite lookups_app, Hl1, Hl2 | by apply paced_app].
Qed.

Lemma generate_contextual_summaries_run w locations session_id s i c :
  active_session (self s) session_id = Some i →
  contexts (self s) !! i = Some c →
  Forall (λ g, named (g_location g)) locations →
  ∃ result s',
    generate_contextual_summaries w locations session_id s = (Return result, s')
    ∧ e_location <$> result = locations
    ∧ Forall (λ e, e_event_summary e = enhanced_fallback (g_location (e_location e))
                   ∨ ∃ h q t, enhanced_summary_model w h q = Says t
                              ∧ e_event_summary e = PyStr.strip t) result
    ∧ ((∀ h q, ∃ m, enhanced_summary_model w h q = ModelFails m) →
       Forall (λ e, e_event_summary e = enhanced_fallback (g_location (e_location e)))
         result)
    ∧ contexts (self s') !! i = Some (with_status "summaries_complete" c)
    ∧ (∀ j, j ≠ i → contexts (self s') !! j = contexts (self s) !! j)
    ∧ current_session_id (self s') = current_session_id (self s).
Proof.
  intros Hact Hc Hnamed.
  pose proof (active_session_some _ _ _ Hact) as Hact'.
  unfold generate_contextual_summaries.
  rewrite run_bind, or_current_run, Hact, run_bind, get_session_context_run, Hact'.
  unfold MCPNewsLocationClient.contexts_get. rewrite Hc.
  rewrite run_try_except, run_bind.
  rewrite (update_session_status_known _ _ _ i c Hact' Hc).
  rewrite run_bind, lift_run. cbn [self history].
  destruct (summarize_loop_run w (with_status "generating_summaries" c) locations []
              (history s ++ [Logged "info" ("Session " +:+ i +:+ " status updated to: "
                                            +:+ "generating_summaries")]) Hnamed)
    as (result & new & -> & Hlocs & Hall & Hfails & _).
  cbn [fst snd]. rewrite run_bind.
  erewrite update_session_status_known; [| exact Hact' |];
    cbn [self contexts current_session_id]; [| by rewrite lookup_alter_eq, Hc].
  rewrite run_ret. exists result. eexists. split; [reflexivity |].
  cbn [self contexts current_session_id].
  split; [done |]. split; [done |]. split; [done |]. split; [| split; [| done]].
  - by rewrite !lookup_alter_eq, Hc.
  - intros j Hj. by rewrite !lookup_alter_ne.
Qed.



(** ** The lookups of the session client *)

Lemma paced_logs log :
  Forall (λ e, match e with Logged _ _ => True | _ => False end) log →
  paced log = true ∧ lookups log = 0.
Proof.
  induction 1 as [|e log He _ [IH1 IH2]]; [done |]. by destruct e.
Qed.

Lemma try_strategies_events w location strategies : ∀ tr,
  ∃ new,
    state_of (MCPNewsLocationClient.try_strategies w location strategies tr) = tr ++ new
    ∧ paced new = true
    ∧ lookups new ≤ length strategies.
Proof.
  induction strategies as [|strategy rest IH]; intros tr.
  - exists []. by rewrite (right_id_L [] (++)).
  - cbn [MCPNewsLocationClient.try_strategies].
    rewrite run_bind, fallback_lookup. cbv zeta.
    destruct (nominatim w (tr ++ [Slept 1]) _ strategy) as [p| |msg].
    + rewrite run_ret. eexists [_; _]. split; [reflexivity |].
      split; [done | simpl; lia].
    + destruct (IH (tr ++ [Slept 1; Geocoded MCPNewsLocationClient.fallback_agent
                                      strategy NoMatch])) as (new & -> & Hp & Hl).
      exists ([Slept 1; Geocoded MCPNewsLocationClient.fallback_agent strategy NoMatch]
              ++ new).
      split; [by rewrite <- (assoc_L (++)) |].
      split; [by apply (paced_app [_; _]) | simpl; lia].
    + destruct (IH (tr ++ [Slept 1; Geocoded MCPNewsLocationClient.fallback_agent
                                      strategy (GeoFails msg)])) as (new & -> & Hp & Hl).
      exists ([Slept 1; Geocoded MCPNewsLocationClient.fallback_agent strategy
                          (GeoFails msg)] ++ new).
      split; [by rewrite <- (assoc_L (++)) |].
      split; [by apply (paced_app [_; _]) | simpl; lia].
Qed.

Lemma length_fallback_strategies location raw :
  length (MCPNewsLocationClient.fallback_strategies location raw) ≤ 4.
Proof.
  unfold MCPNewsLocationClient.fallback_strategies. rewrite length_app.
  destruct (c_related_locations location) as [[|r related]|]; simpl; lia.
Qed.

Lemma geocode_with_context_events w location tr :
  ∃ new,
    state_of (MCPNewsLocationClient._geocode_with_context w location tr) = tr ++ new
    ∧ paced new = true
    ∧ lookups new ≤ 1.
Proof.
  unfold MCPNewsLocationClient._geocode_with_context.
  rewrite run_try_except, run_bind.
  unfold MCPNewsLocationClient.primary_query.
  destruct (c_location location) as [raw|]; cbn [getitem].
  2:{ rewrite run_bind, run_raise. unfold MCPNewsLocationClient.log.
      rewrite run_bind, run_emit, run_ret. eexists [_]. split; [reflexivity |].
      split; [done | simpl; lia]. }
  rewrite run_bind, !run_ret, run_bind. unfold sleep. rewrite run_emit, run_bind.
  unfold geocode. cbv zeta.
  match goal with |- context [nominatim w ?h ?a ?q] =>
    destruct (nominatim w h a q) as [p| |msg] end.
  - rewrite run_ret. eexists [_; _]. unfold state_of. cbn [snd].
    rewrite <- (assoc_L (++)). split; [reflexivity |]. split; [done | simpl; lia].
  - rewrite run_ret. eexists [_; _]. unfold state_of. cbn [snd].
    rewrite <- (assoc_L (++)). split; [reflexivity |]. split; [done | simpl; lia].
  - unfold MCPNewsLocationClient.log. rewrite run_bind, run_emit, run_ret.
    eexists [_; _; _]. unfold state_of. cbn [snd].
    rewrite <- !(assoc_L (++)). split; [reflexivity |]. split; [done | simpl; lia].
Qed.

(** One turn of the loop of [intelligent_geocoding]: at most five lookups,
    one of the primary strategy and four of the fallbacks, each after a
    sleep of one second. *)
Lemma geocode_location_events w acc location tr :
  ∃ new,
    state_of (MCPNewsLocationClient.geocode_location w acc location tr) = tr ++ new
    ∧ paced new = true
    ∧ lookups new ≤ 5.
Proof.
  unfold MCPNewsLocationClient.geocode_location.
  rewrite run_try_except, run_bind.
  destruct (geocode_with_context_result w location tr) as (r & tr1 & Hrun & _).
  destruct (geocode_with_context_events w location tr) as (new1 & Hst & Hp1 & Hl1).
  rewrite Hrun in Hst |- *. unfold state_of in Hst. cbn [snd] in Hst. subst tr1.
  destruct r as [g|].
  { rewrite run_ret. exists new1. split; [done |]. split; [done | lia]. }
  rewrite run_bind. unfold MCPNewsLocationClient._geocode_with_fallbacks.
  destruct (c_location location) as [raw|] eqn:Hraw; cbn [getitem].
  2:{ rewrite run_bind, run_raise. cbn [getitem]. rewrite run_bind, run_raise.
      exists new1. split; [done |]. split; [done | lia]. }
  rewrite run_bind, run_ret.
  destruct (try_strategies_result w location
              (MCPNewsLocationClient.fallback_strategies location raw) (tr ++ new1))
    as (r & tr2 & Hrun2 & _).
  destruct (try_strategies_events w location
              (MCPNewsLocationClient.fallback_strategies location raw) (tr ++ new1))
    as (new2 & Hst2 & Hp2 & Hl2).
  pose proof (length_fallback_strategies location raw) as Hlen.
  rewrite Hrun2 in Hst2 |- *. unfold state_of in Hst2. cbn [snd] in Hst2. subst tr2.
  destruct r as [g|].
  - rewrite run_ret. exists (new1 ++ new2). unfold state_of. cbn [snd].
    rewrite <- (assoc_L (++)). split; [done |].
    split; [by apply paced_app | rewrite lookups_app; lia].
  - unfold MCPNewsLocationClient.log.
    rewrite run_bind, run_ret, run_bind, run_emit, run_ret.
    exists (new1 ++ new2 ++ [Logged "warning" ("Failed to geocode: " +:+ raw)]).
    unfold state_of. cbn [snd]. rewrite <- !(assoc_L (++)). split; [done |].
    split; [by repeat apply paced_app | rewrite !lookups_app; simpl; lia].
Qed.

Lemma geocode_loop_events w locations : ∀ acc tr,
  ∃ new,
    state_of (for_each (MCPNewsLocationClient.geocode_location w) locations acc tr)
    = tr ++ new
    ∧ paced new = true
    ∧ lookups new ≤ 5 * length locations.
Proof.
  induction locations as [|location rest IH]; intros acc tr.
  - exists []. by rewrite (right_id_L [] (++)).
  - cbn [for_each]. rewrite run_bind.
    destruct (geocode_location_events w acc location tr) as (new1 & Hst & Hp1 & Hl1).
    destruct (MCPNewsLocationClient.geocode_location w acc location tr)
      as [[acc'|e] tr1]; unfold state_of in Hst; cbn [snd] in Hst; subst tr1.
    + destruct (IH acc' (tr ++ new1)) as (new2 & -> & Hp2 & Hl2).
      exists (new1 ++ new2). rewrite <- (assoc_L (++)). split; [done |].
      split; [by apply paced_app | rewrite lookups_app; simpl; lia].
    + exists new1. split; [done |]. split; [done | simpl; lia].
Qed.

(** X12.  A call of [intelligent_geocoding] only adds to the history.
    Among the events it adds, every lookup of the geocoding service comes
    right after a sleep of at least one second, and there are at most five
    lookups for each location: one for the primary strategy and at most
    four for the fallbacks. *)
Theorem session_geocoding_rate_limit w locations session_id s :
  ∃ new,
    history (state_of (MCPNewsLocationClient.intelligent_geocoding w locations
                         session_id s))
    = history s ++ new
    ∧ (∀ i agent query r,
         new !! i = Some (Geocoded agent query r) →
         ∃ j seconds, i = S j ∧ new !! j = Some (Slept seconds) ∧ 1 ≤ seconds)
    ∧ lookups new ≤ 5 * length locations.
Proof.
  assert (∃ new,
            history (state_of (MCPNewsLocationClient.intelligent_geocoding w locations
                                 session_id s))
            = history s ++ new
            ∧ paced new = true
            ∧ lookups new ≤ 5 * length locations) as (new & Hst & Hp & Hl).
  { destruct (MCPNewsLocationClient.contexts_get (self s)
                (active_session (self s) session_id)) as [c|] eqn:Hc.
    - destruct (active_session (self s) session_id) as [i|] eqn:Hact; [| done].
      destruct (intelligent_geocoding_run w locations session_id s i c Hact Hc)
        as (s' & -> & _ & _ & (log & Hhist & Hlog) & _).
      destruct (geocode_loop_events w locations []
                  (history s ++ [Logged "info" ("Session " +:+ i
                                                +:+ " status updated to: "
                                                +:+ "geocoding_locations")]))
        as (new & Hloop & Hp & Hl).
      destruct (paced_logs log Hlog) as [Hp' Hl'].
      exists ([Logged "info" ("Session " +:+ i +:+ " status updated to: "
                              +:+ "geocoding_locations")] ++ new ++ log).
      unfold state_of at 1. cbn [snd]. rewrite Hhist, Hloop.
      rewrite <- !(assoc_L (++)). split; [done |].
      split; [by repeat apply paced_app |].
      rewrite !lookups_app, Hl'. simpl. lia.
    - rewrite (intelligent_geocoding_no_session w locations session_id s Hc).
      exists []. rewrite (right_id_L [] (++)). split; [done |]. split; [done | simpl; lia]. }
  exists new. split; [done |]. split; [| done].
  intros i agent query r Hi.
  destruct (paced_after_lookup false new i agent query r Hp Hi) as [[_ ?] | H]; done.
Qed.

(** ** The cleaning of the text of a page *)

Lemma string_ind2 (P : string → Prop) :
  P "" → (∀ c, P (String c "")) →
  (∀ c c' s, P s → P (String c' s) → P (String c (String c' s))) →
  ∀ s, P s.
Proof.
  intros Hnil Hone Htwo s.
  assert (P s ∧ ∀ c, P (String c s)) as [H _]; [| exact H].
  induction s as [|c' s [IH1 IH2]]; [by split |].
  split; [apply IH2 |]. intros c. apply Htwo; [exact IH1 | apply IH2].
Qed.

Lemma splitlines_cons c s :
  PyText.splitlines (String c s)
  = if PyText.is_linebreak c
    then "" :: match s with
               | String c' s' =>
                   if PyText.is_cr c && PyText.is_lf c'
                   then PyText.splitlines s' else PyText.splitlines s
               | "" => []
               end
    else PyText.cons_head c (PyText.splitlines s).
Proof. by destruct s. Qed.

Lemma split_two_blanks_cons c c' s :
  PyText.split_two_blanks (String c (String c' s))
  = if PyText.is_blank c && PyText.is_blank c'
    then "" :: PyText.split_two_blanks s
    else PyText.cons_head c (PyText.split_two_blanks (String c' s)).
Proof. reflexivity. Qed.

Lemma is_blank_spec c : PyText.is_blank c = true ↔ c = " "%char.
Proof.
  unfold PyText.is_blank, PyStr.code. rewrite N.eqb_eq. split.
  - intros H. by rewrite <- (Ascii.ascii_N_embedding c), H.
  - by intros ->.
Qed.

Lemma prefix_cons a s1 b s2 :
  String.prefix (String a s1) (String b s2)
  = if ascii_dec a b then String.prefix s1 s2 else false.
Proof. reflexivity. Qed.

Lemma prefix_empty s : String.prefix "" s = true.
Proof. by destruct s. Qed.

Lemma ascii_dec_blank c (then_ : bool) :
  (if ascii_dec " " c then then_ else false) = PyText.is_blank c && then_.
Proof.
  destruct (ascii_dec " " c) as [<- | Hc]; [done |].
  destruct (PyText.is_blank c) eqn:E; [| done].
  apply is_blank_spec in E. congruence.
Qed.

Lemma prefix_two_blanks c s :
  String.prefix "  " (String c s)
  = PyText.is_blank c
    && match s with String c' _ => PyText.is_blank c' | "" => false end.
Proof.
  rewrite prefix_cons, ascii_dec_blank. destruct s as [|c' s]; [done |].
  by rewrite prefix_cons, ascii_dec_blank, prefix_empty, andb_true_r.
Qed.

Lemma contains_two_blanks c s :
  PyStr.contains "  " (String c s)
  = (PyText.is_blank c
     && match s with String c' _ => PyText.is_blank c' | "" => false end)
    || PyStr.contains "  " s.
Proof. cbn [PyStr.contains]. by rewrite prefix_two_blanks. Qed.

Lemma contains_two_blanks_one c : PyStr.contains "  " (String c "") = false.
Proof. by rewrite contains_two_blanks, andb_false_r. Qed.

(** *** Lines *)

Lemma one_line_lstrip s :
  PyText.one_line s = true → PyText.one_line (PyStr.lstrip s) = true.
Proof.
  induction s as [|c s IH]; [done |]. intros H. cbn [PyStr.lstrip].
  destruct (PyStr.isspace_char c); [| done].
  apply IH. cbn [PyText.one_line] in H. by apply andb_true_iff in H as [_ ?].
Qed.

Lemma one_line_rstrip s :
  PyText.one_line s = true → PyText.one_line (PyStr.rstrip s) = true.
Proof.
  induction s as [|c s IH]; [done |]. intros H.
  cbn [PyText.one_line] in H. apply andb_true_iff in H as [Hc Hs].
  specialize (IH Hs). cbn [PyStr.rstrip].
  destruct (PyStr.rstrip s) as [|c' r].
  - destruct (PyStr.isspace_char c); [done |]. cbn [PyText.one_line]. by rewrite Hc.
  - change (PyText.one_line (String c (String c' r)))
      with (negb (PyText.is_linebreak c) && PyText.one_line (String c' r)).
    by rewrite Hc, IH.
Qed.

Lemma one_line_strip s :
  PyText.one_line s = true → PyText.one_line (PyStr.strip s) = true.
Proof. intros H. by apply one_line_rstrip, one_line_lstrip. Qed.

Lemma cons_head_one_line c pieces :
  PyText.is_linebreak c = false →
  Forall (λ l, PyText.one_line l = true) pieces →
  Forall (λ l, PyText.one_line l = true) (PyText.cons_head c pieces).
Proof.
  intros Hc [|l rest Hl Hrest]; simpl.
  - repeat constructor. cbn [PyText.one_line]. by rewrite Hc.
  - constructor; [| done]. cbn [PyText.one_line]. by rewrite Hc, Hl.
Qed.

Lemma splitlines_one_line s :
  Forall (λ l, PyText.one_line l = true) (PyText.splitlines s).
Proof.
  induction s as [|c|c c' s IH1 IH2] using string_ind2.
  - constructor.
  - rewrite splitlines_cons. destruct (PyText.is_linebreak c) eqn:Hc.
    + by repeat constructor.
    + apply cons_head_one_line; [done | constructor].
  - rewrite splitlines_cons. destruct (PyText.is_linebreak c) eqn:Hc.
    + constructor; [done |]. by destruct (PyText.is_cr c && PyText.is_lf c').
    + by apply cons_head_one_line.
Qed.

Lemma split_two_blanks_one_line s :
  PyText.one_line s = true →
  Forall (λ p, PyText.one_line p = true) (PyText.split_two_blanks s).
Proof.
  induction s as [|c|c c' s IH1 IH2] using string_ind2; intros H.
  - by repeat constructor.
  - by repeat constructor.
  - change (PyText.one_line (String c (String c' s)))
      with (negb (PyText.is_linebreak c) && PyText.one_line (String c' s)) in H.
    apply andb_true_iff in H as [Hc%negb_true_iff Hs].
    rewrite split_two_blanks_cons. destruct (PyText.is_blank c && PyText.is_blank c').
    + constructor; [done |]. apply IH1.
      cbn [PyText.one_line] in Hs. by apply andb_true_iff in Hs as [_ ?].
    + apply cons_head_one_line; [done | by apply IH2].
Qed.

Lemma splitlines_line x :
  PyText.one_line x = true → x ≠ "" → PyText.splitlines x = [x].
Proof.
  induction x as [|c x IH]; [done |]. intros H _.
  cbn [PyText.one_line] in H. apply andb_true_iff in H as [Hc%negb_true_iff Hx].
  rewrite splitlines_cons, Hc. destruct x as [|c' x]; [done |].
  by rewrite IH.
Qed.

Lemma splitlines_app_newline x t :
  PyText.one_line x = true →
  PyText.splitlines (x +:+ PyText.newline +:+ t) = x :: PyText.splitlines t.
Proof.
  induction x as [|c x IH]; intros H.
  - rewrite app_empty. unfold PyText.newline. rewrite app_cons, app_empty.
    rewrite splitlines_cons. by destruct t.
  - cbn [PyText.one_line] in H. apply andb_true_iff in H as [Hc%negb_true_iff Hx].
    by rewrite app_cons, splitlines_cons, Hc, (IH Hx).
Qed.

Lemma splitlines_concat chunks :
  Forall (λ chunk, PyText.one_line chunk = true ∧ chunk ≠ "") chunks →
  PyText.splitlines (String.concat PyText.newline chunks) = chunks.
Proof.
  induction 1 as [|x chunks [Hx Hne] Hrest IH]; [done |].
  destruct chunks as [|y chunks].
  - by apply splitlines_line.
  - change (String.concat PyText.newline (x :: y :: chunks))
      with (x +:+ PyText.newline +:+ String.concat PyText.newline (y :: chunks)).
    by rewrite splitlines_app_newline, IH.
Qed.

(** *** Two blanks *)

Lemma two_blanks_tail c s :
  PyStr.contains "  " (String c s) = false → PyStr.contains "  " s = false.
Proof. rewrite contains_two_blanks. by intros [_ ?]%orb_false_iff. Qed.

Lemma two_blanks_lstrip s :
  PyStr.contains "  " s = false → PyStr.contains "  " (PyStr.lstrip s) = false.
Proof.
  induction s as [|c s IH]; [done |]. intros H. cbn [PyStr.lstrip].
  destruct (PyStr.isspace_char c); [| done]. apply IH. by eapply two_blanks_tail.
Qed.

Lemma rstrip_head s c r : PyStr.rstrip s = String c r → ∃ t, s = String c t.
Proof.
  destruct s as [|c0 s]; [done |]. cbn [PyStr.rstrip].
  destruct (PyStr.rstrip s); [destruct (PyStr.isspace_char c0); [done |] |];
    intros [= <- _]; by eexists.
Qed.

Lemma two_blanks_rstrip s :
  PyStr.contains "  " s = false → PyStr.contains "  " (PyStr.rstrip s) = false.
Proof.
  induction s as [|c s IH]; [done |]. intros H.
  pose proof (two_blanks_tail _ _ H) as Hs. specialize (IH Hs).
  cbn [PyStr.rstrip]. destruct (PyStr.rstrip s) as [|c' r] eqn:Hr.
  - destruct (PyStr.isspace_char c); [done |]. apply contains_two_blanks_one.
  - rewrite contains_two_blanks, IH, orb_false_r.
    rewrite contains_two_blanks in H. apply orb_false_iff in H as [H _].
    by destruct (rstrip_head _ _ _ Hr) as [t ->].
Qed.

Lemma two_blanks_strip s :
  PyStr.contains "  " s = false → PyStr.contains "  " (PyStr.strip s) = false.
Proof. intros H. by apply two_blanks_rstrip, two_blanks_lstrip. Qed.

Lemma split_two_blanks_head s p rest c0 p' :
  PyText.split_two_blanks s = p :: rest → p = String c0 p' → ∃ t, s = String c0 t.
Proof.
  destruct s as [|c [|c' s]].
  - by intros [= <- _].
  - intros [= <- _] [= <- _]. by eexists.
  - rewrite split_two_blanks_cons. destruct (PyText.is_blank c && PyText.is_blank c').
    + by intros [= <- _].
    + unfold PyText.cons_head.
      destruct (PyText.split_two_blanks (String c' s)); intros [= <- _] [= <- _];
        by eexists.
Qed.

Lemma split_two_blanks_pieces s :
  Forall (λ p, PyStr.contains "  " p = false) (PyText.split_two_blanks s).
Proof.
  induction s as [|c|c c' s IH1 IH2] using string_ind2.
  - by repeat constructor.
  - repeat constructor. apply contains_two_blanks_one.
  - rewrite split_two_blanks_cons.
    destruct (PyText.is_blank c && PyText.is_blank c') eqn:Hbb.
    + by constructor.
    + destruct (PyText.split_two_blanks (String c' s)) as [|p rest] eqn:Hsplit; simpl.
      * repeat constructor. apply contains_two_blanks_one.
      * apply Forall_cons in IH2 as [Hp Hrest]. constructor; [| done].
        rewrite contains_two_blanks, Hp, orb_false_r.
        destruct p as [|c0 p']; [by rewrite andb_false_r |].
        destruct (split_two_blanks_head _ _ _ _ _ Hsplit eq_refl) as [t [= <- _]].
        exact Hbb.
Qed.

Lemma split_two_blanks_free s :
  PyStr.contains "  " s = false → PyText.split_two_blanks s = [s].
Proof.
  induction s as [|c|c c' s IH1 IH2] using string_ind2; intros H; [done | done |].
  rewrite split_two_blanks_cons. rewrite contains_two_blanks in H.
  apply orb_false_iff in H as [Hbb Hs]. by rewrite Hbb, (IH2 Hs).
Qed.

(** *** The cleaned text *)

Lemma clean_text_chunks content :
  ∃ chunks,
    clean_text content = String.concat PyText.newline chunks
    ∧ Forall (λ chunk, PyStr.strip chunk = chunk
                       ∧ 10 < PyStr.len chunk
                       ∧ PyText.one_line chunk = true
                       ∧ PyStr.contains "  " chunk = false) chunks.
Proof.
  unfold clean_text. eexists. split; [reflexivity |].
  apply Forall_forall. intros chunk [Hkeep Hin]%list_elem_of_filter.
  apply list_elem_of_fmap in Hin as (piece & -> & Hpiece).
  apply list_elem_of_bind in Hpiece as (line & Hpiece & Hline).
  apply list_elem_of_fmap in Hline as (raw & -> & Hraw).
  pose proof (proj1 (Forall_forall (λ l, PyText.one_line l = true) _)
                (splitlines_one_line content) raw Hraw) as Hone.
  pose proof (proj1 (Forall_forall (λ p, PyText.one_line p = true) _)
                (split_two_blanks_one_line _ (one_line_strip _ Hone)) piece Hpiece)
    as Hone'.
  pose proof (proj1 (Forall_forall (λ p, PyStr.contains "  " p = false) _)
                (split_two_blanks_pieces _) piece Hpiece) as Hfree.
  apply andb_prop_elim in Hkeep as [_ Hlen].
  apply Is_true_true, Nat.ltb_lt in Hlen.
  split; [apply strip_idem |]. split; [done |].
  split; [by apply one_line_strip | by apply two_blanks_strip].
Qed.

Lemma clean_text_of_chunks chunks :
  Forall (λ chunk, PyStr.strip chunk = chunk
                   ∧ 10 < PyStr.len chunk
                   ∧ PyText.one_line chunk = true
                   ∧ PyStr.contains "  " chunk = false) chunks →
  clean_text (String.concat PyText.newline chunks)
  = String.concat PyText.newline chunks.
Proof.
  intros Hgood. unfold clean_text. rewrite splitlines_concat.
  2:{ eapply Forall_impl; [exact Hgood |]. intros chunk (_ & Hlen & Hone & _).
      split; [done |]. intros ->. by apply Nat.nlt_0_r in Hlen. }
  assert (PyStr.strip <$> chunks = chunks) as Hstrip.
  { induction Hgood as [|chunk l (Hs & _) _ IH]; [done |].
    by rewrite fmap_cons, Hs, IH. }
  rewrite Hstrip.
  assert (chunks ≫= PyText.split_two_blanks = chunks) as ->.
  { induction Hgood as [|chunk l (_ & _ & _ & Hfree) _ IH]; [done |].
    rewrite bind_cons, split_two_blanks_free by done.
    rewrite IH; [done |]. by injection Hstrip. }
  rewrite Hstrip.
  assert (filter (λ chunk, PyStr.truthy chunk && (10 <? PyStr.len chunk)%nat) chunks
          = chunks) as ->; [| done].
  clear Hstrip. induction Hgood as [|chunk l (_ & Hlen & _) _ IH]; [done |].
  rewrite filter_cons_True, IH; [done |].
  apply andb_prop_intro. split.
  - apply Is_true_true, truthy_true. intros ->. by apply Nat.nlt_0_r in Hlen.
  - by apply Is_true_true, Nat.ltb_lt.
Qed.

(** X13.  Every line of the text [clean_text] gives is trimmed, has more
    than 10 characters and has no two blanks in a row: the cleaning of
    [extract_article_from_url] and of [ArticleExtractorTool._run] leaves no
    empty line, no margin and no run of blanks in the text. *)
Theorem cleaned_lines content :
  Forall (λ line, PyStr.strip line = line
                  ∧ 10 < PyStr.len line
                  ∧ PyStr.contains "  " line = false)
    (PyText.splitlines (clean_text content)).
Proof.
  destruct (clean_text_chunks content) as (chunks & -> & Hgood).
  rewrite splitlines_concat.
  - eapply Forall_impl; [exact Hgood |]. by intros line (? & ? & _ & ?).
  - eapply Forall_impl; [exact Hgood |]. intros chunk (_ & Hlen & Hone & _).
    split; [done |]. intros ->. by apply Nat.nlt_0_r in Hlen.
Qed.

(** X14.  Cleaning is idempotent: a text that was cleaned is left as it
    is by a second cleaning. *)
Theorem clean_text_idempotent content :
  clean_text (clean_text content) = clean_text content.
Proof.
  destruct (clean_text_chunks content) as (chunks & -> & Hgood).
  by apply clean_text_of_chunks.
Qed.

(** ** Fetching an article *)

Lemma existsb_false {A} (f : A → bool) l :
  existsb f l = false → Forall (λ x, f x = false) l.
Proof.
  induction l as [|x l IH]; [constructor |]. simpl.
  intros [Hx Hl]%orb_false_iff. constructor; [done | by apply IH].
Qed.

Lemma with_scheme_has_scheme url :
  PyStr.startswith "http://" (with_scheme url)
  || PyStr.startswith "https://" (with_scheme url) = true.
Proof.
  unfold with_scheme.
  destruct (PyStr.startswith "http://" url || PyStr.startswith "https://" url) eqn:E;
    [exact E |].
  by destruct url.
Qed.

Lemma run_requests_get www url timeout h :
  requests_get www url timeout h
  = (Return (www h url timeout), h ++ [Requested url timeout (www h url timeout)]).
Proof. reflexivity. Qed.

(** The runs of [extract_article_from_url]: no request, one request that
    did not time out, or a request that timed out and a second one. *)
Lemma extract_article_from_url_run www url h :
  ∃ text,
    (extract_article_from_url www url h = (Return text, h)
     ∧ PyStr.startswith "Error" text = true)
    ∨ (PyStr.strip url ≠ ""
       ∧ existsb (λ pattern, PyStr.contains pattern (PyStr.lower (with_scheme url)))
           invalid_patterns = false
       ∧ ((∃ r, extract_article_from_url www url h
                = (Return text, h ++ [Requested (with_scheme url) 60 r])
                ∧ (∀ msg, r ≠ Timeout msg)
                ∧ (PyStr.startswith "Error" text = true
                   ∨ ∃ content, text = PyStr.take 5000 content))
          ∨ (∃ msg r, extract_article_from_url www url h
                      = (Return text,
                         h ++ [Requested (with_scheme url) 60 (Timeout msg);
                               Requested (with_scheme url) 120 r])
                      ∧ (PyStr.startswith "Error" text = true
                         ∨ ∃ content, text = PyStr.take 5000 content)))).
Proof.
  unfold extract_article_from_url.
  destruct (PyStr.truthy (PyStr.strip url)) eqn:Hurl; cbn [negb].
  2:{ eexists. left. by rewrite run_ret. }
  apply truthy_true in Hurl. cbv zeta.
  destruct (existsb _ invalid_patterns) eqn:Hdeny.
  { eexists. left. by rewrite run_ret. }
  rewrite run_bind, run_requests_get.
  destruct (www h (with_scheme url) 60) as [p|msg|msg|msg code reason|msg|msg].
  - destruct (negb _);
      [| destruct (_ <? 50)%nat; [| destruct (existsb _ error_indicators)]];
      rewrite run_ret; eexists; right; (split; [done |]); (split; [done |]);
      left; eexists; (split; [reflexivity |]); (split; [done |]);
      first [by left | right; by eexists].
  - rewrite run_bind, run_requests_get.
    destruct (www _ (with_scheme url) 120) as [p|msg'|msg'|msg' code reason|msg'|msg'];
      rewrite run_ret, <- (assoc_L (++));
      eexists; right; (split; [done |]); (split; [done |]);
      right; eexists _, _; (split; [reflexivity |]);
      first [by left | idtac].
    destruct (PyStr.truthy (p_raw_text p)); [right; by eexists | by left].
  - rewrite run_ret. eexists. right. split; [done |]. split; [done |].
    left. eexists. split; [reflexivity |]. split; [done | by left].
  - rewrite run_ret. eexists. right. split; [done |]. split; [done |].
    left. eexists. split; [reflexivity |]. split; [done | by left].
  - rewrite run_ret. eexists. right. split; [done |]. split; [done |].
    left. eexists. split; [reflexivity |]. split; [done | by left].
  - rewrite run_ret. eexists. right. split; [done |]. split; [done |].
    left. eexists. split; [reflexivity |]. split; [done | by left].
Qed.

(** X15.  [extract_article_from_url] always returns a text, and it makes
    at most two requests.  Every request goes to the URL given, with
    "https://" in front when it has no scheme; that URL is not blank and
    has, in lower case, none of the four refused patterns (localhost,
    127.0.0.1, example.com, test.com).  The first request has a timeout of
    60 seconds; a second one is made only when the first timed out, to the
    same URL, with a timeout of 120 seconds. *)
Theorem requests_are_vetted www url h :
  ∃ text new,
    extract_article_from_url www url h = (Return text, h ++ new)
    ∧ length new ≤ 2
    ∧ (∀ i u t r, new !! i = Some (Requested u t r) →
         u = with_scheme url
         ∧ PyStr.strip url ≠ ""
         ∧ PyStr.startswith "http://" u || PyStr.startswith "https://" u = true
         ∧ Forall (λ pattern, PyStr.contains pattern (PyStr.lower u) = false)
             invalid_patterns
         ∧ (i = 0 ∧ t = 60
            ∨ i = 1 ∧ t = 120
              ∧ ∃ msg, new !! 0 = Some (Requested u 60 (Timeout msg)))).
Proof.
  destruct (extract_article_from_url_run www url h)
    as [text [[Hrun _] | (Hurl & Hdeny & [(r & Hrun & _) | (msg & r & Hrun & _)])]].
  - exists text, []. rewrite (right_id_L [] (++)). split; [done |].
    split; [simpl; lia |]. by intros i u t r Hi.
  - exists text, [Requested (with_scheme url) 60 r]. split; [done |].
    split; [simpl; lia |]. intros [|i] u t r' Hi; [| done].
    injection Hi as <- <- <-. split; [done |]. split; [done |].
    split; [apply with_scheme_has_scheme |]. split; [by apply existsb_false |].
    by left.
  - exists text, [Requested (with_scheme url) 60 (Timeout msg);
                  Requested (with_scheme url) 120 r].
    split; [done |]. split; [simpl; lia |].
    intros [|[|i]] u t r' Hi; [| | done]; injection Hi as <- <- <-;
      (split; [done |]); (split; [done |]);
      (split; [apply with_scheme_has_scheme |]);
      (split; [by apply existsb_false |]).
    + by left.
    + right. split; [done |]. split; [done |]. by exists msg.
Qed.

(** X16.  A text of [extract_article_from_url] that does not start with
    "Error" (the test of [handle_url_analysis] before it hands the text to
    [process_article_sync]) has at most 5000 characters; so
    [process_article_sync] never truncates a fetched article and never
    shows the notice of truncation for it. *)
Theorem fetched_article_is_not_truncated www url h text :
  result_of (extract_article_from_url www url h) = Return text →
  PyStr.startswith "Error" text = false →
  PyStr.len text ≤ 5000
  ∧ prepared_text text = text
  ∧ ∀ tr, prepared_trace text tr = tr.
Proof.
  intros Hres Hok.
  assert (PyStr.len text ≤ 5000) as Hlen.
  { destruct (extract_article_from_url_run www url h)
      as [text' [[Hrun Herr] | (_ & _ & [(r & Hrun & _ & Hshape)
                                        | (msg & r & Hrun & Hshape)])]];
      rewrite Hrun in Hres; injection Hres as ->.
    - congruence.
    - destruct Hshape as [Herr | [content ->]]; [congruence |].
      rewrite len_take. apply Nat.le_min_l.
    - destruct Hshape as [Herr | [content ->]]; [congruence |].
      rewrite len_take. apply Nat.le_min_l. }
  assert ((10000 <? PyStr.len text)%nat = false) as Hfits.
  { apply Nat.ltb_ge. etrans; [exact Hlen |]. apply Nat.leb_le. by vm_compute. }
  split; [done |]. unfold prepared_text, prepared_trace. by rewrite Hfits.
Qed.

Lemma fetched_article_is_not_truncated_witness :
  PyStr.len (PyStr.take 5000 (clean_text (main_content news_page))) ≤ 5000
  ∧ prepared_text (PyStr.take 5000 (clean_text (main_content news_page)))
    = PyStr.take 5000 (clean_text (main_content news_page))
  ∧ ∀ tr, prepared_trace (PyStr.take 5000 (clean_text (main_content news_page))) tr
          = tr.
Proof.
  apply (fetched_article_is_not_truncated news_site "news.example.org/paris" []).
  - by vm_compute.
  - by vm_compute.
Defined.

(** ** Geocoding, then summaries *)

(** X17.  The two steps of the session client compose: on a session that
    exists and on locations that have a name, [intelligent_geocoding]
    returns a list that [generate_contextual_summaries] accepts; the second
    call returns one entry for every geocoded location, in order, and
    [get_session_summary] then reports the status "summaries_complete" and
    as many geocoded locations as there are entries, the errors of the
    session as before. *)
Theorem geocode_then_summarise w locations session_id s i c :
  active_session (self s) session_id = Some i →
  contexts (self s) !! i = Some c →
  Forall named locations →
  ∃ found s1 result s2,
    MCPNewsLocationClient.intelligent_geocoding w locations session_id s
    = (Return found, s1)
    ∧ generate_contextual_summaries w found session_id s1 = (Return result, s2)
    ∧ e_location <$> result = found
    ∧ result_of (get_session_summary session_id s2)
      = Return (summary_of (Some i) "summaries_complete"
                  (length (extracted_locations c)) (length result) (error_messages c)).
Proof.
  intros Hact Hc Hnamed.
  destruct (intelligent_geocoding_named w locations session_id s i c Hact Hc Hnamed)
    as (found & s1 & Hrun1 & Hi1 & _ & Hcur1 & Hfound & _).
  assert (active_session (self s1) session_id = Some i) as Hact1
    by (by rewrite (active_session_current (self s1) (self s) session_id Hcur1)).
  destruct (generate_contextual_summaries_run w found session_id s1 i _
              Hact1 Hi1 Hfound)
    as (result & s2 & Hrun2 & Hlocs & _ & _ & Hi2 & _ & Hcur2).
  exists found, s1, result, s2. split; [done |]. split; [done |]. split; [done |].
  unfold get_session_summary.
  rewrite run_bind, or_current_run, run_bind, get_session_context_run,
    active_session_idem.
  rewrite (active_session_current (self s2) (self s1) session_id Hcur2), Hact1.
  unfold MCPNewsLocationClient.contexts_get. rewrite Hi2.
  cbn [with_status with_geocoded processing_status extracted_locations
       geocoded_locations error_messages].
  by rewrite <- Hlocs, length_fmap.
Qed.

Lemma geocode_then_summarise_witness :
  ∃ found s1 result s2,
    MCPNewsLocationClient.intelligent_geocoding (example_world [] paris_known)
      [paris_candidate; atlantis] None two_sessions = (Return found, s1)
    ∧ generate_contextual_summaries (example_world [] paris_known) found None s1
      = (Return result, s2)
    ∧ e_location <$> result = found
    ∧ result_of (get_session_summary None s2)
      = Return (summary_of (Some "s") "summaries_complete"
                  (length (extracted_locations empty_context)) (length result)
                  (error_messages empty_context)).
Proof.
  apply geocode_then_summarise.
  - reflexivity.
  - reflexivity.
  - by repeat constructor; eexists.
Defined.

(** ** The lookups of the crew *)

(** X18.  [extract_and_process_locations] never raises and looks up each
    candidate at most once: when the answer of the extraction tool parses
    to a list of candidates, the run makes no more lookups of the
    geocoding service than there are candidates; when the answer is not
    JSON, it makes none and returns the empty list. *)
Theorem one_lookup_per_candidate w text tr :
  ∃ data new,
    NewsLocationMappingCrew.extract_and_process_locations w text tr
    = (Return data, tr ++ new)
    ∧ ∀ answer,
        result_of (LocationExtractionTool._run w text tr) = Return answer →
        match json_loads w answer with
        | Parsed candidates => lookups new ≤ length candidates
        | Invalid _ => lookups new = 0 ∧ data = []
        end.
Proof.
  destruct (extract_and_process_locations_events w text tr)
    as (data & loop & tail & Hrun & _ & Htail & Hparsed & Hinvalid).
  exists data, ([Extraction text (extraction_model w tr text)] ++ loop ++ tail).
  split; [done |]. intros answer Hanswer.
  rewrite extraction_run in Hanswer. injection Hanswer as <-.
  assert (lookups ([Extraction text (extraction_model w tr text)] ++ loop ++ tail)
          = lookups loop) as ->.
  { rewrite !lookups_app. destruct Htail as [-> | [msg ->]]; simpl; lia. }
  destruct (json_loads w _) as [candidates|msg] eqn:Hjson.
  - by apply Hparsed.
  - by destruct (Hinvalid msg eq_refl) as [-> ->].
Qed.
